(** * NewsletterGPT: the digest pipeline of [newsletter_processor.py]

    A shallow embedding of the batch job that queries unread newsletters
    per sender, fetches and archives them, summarises the combined text,
    and mails one digest.  The mail service, the summarisation service,
    the clock and Python's library codecs are the environment: a record of
    transition functions over an abstract world.  Every effect of the
    program (service calls with their responses, lines printed) is
    collected in a log, in program order. *)

From Stdlib Require Import NArith String Ascii Lia.
From stdpp Require Import base list.

Set Default Proof Using "Type".
Local Open Scope list_scope.

(** ** Python values *)

(** A Python [str] is a sequence of Unicode code points; [len] and slicing
    count code points. *)
Definition char : Type := N.
Definition str : Type := list char.

(** ASCII literals of the source. *)
Definition py (s : string) : str := map N_of_ascii (list_ascii_of_string s).
Arguments py : simpl never.

(** The line feed written [\n] in the source. *)
Definition LF : char := 10%N.

(** Truthiness of a [str] or [list]: non-empty. *)
Definition truthy {A} (l : list A) : bool :=
  match l with [] => false | _ :: _ => true end.

(** Exceptions that can end a run. *)
Inductive exn : Type :=
| IndexError                 (* [seq[0]] on an empty sequence *)
| ValueError                 (* binascii.Error, UnicodeDecodeError *)
| ServiceError (info : str). (* anything raised by an external call *)

Inductive Exc (A : Type) : Type :=
| Ok (a : A)
| Raise (e : exn).
Arguments Ok {A} a.
Arguments Raise {A} e.

(** ** Data exchanged with the services *)

(** An element of [results['messages']]; the code reads [message['id']]. *)
Record message_ref : Type := { ref_id : str }.

(** The response of [messages().list]: the [messages] key may be absent. *)
Record list_response : Type := { messages : option (list message_ref) }.

(** A body resource: the [data] key may be absent. *)
Record body : Type := { data : option str }.
Record part : Type := { part_body : body }.

(** [message['payload']]: a body, and a [parts] key that may be absent. *)
Record payload : Type := { payload_body : body; parts : option (list part) }.
Record message : Type := { msg_payload : payload }.

(** Chat messages sent to the summarisation service. *)
Record chat_message : Type := { role : str; content : str }.

(** [completion.choices[i].message.content] *)
Record choice : Type := { choice_content : str }.
Record completion : Type := { choices : list choice }.

(** The [MIMEText] message built by [send_summary_email]: the text, the
    subtype ([MIMEText(text)] is [text/plain]) and the two headers set. *)
Record MIMEText : Type :=
  { mime_text : str; mime_subtype : str; mime_to : str; mime_subject : str }.

(** What [strftime('%Y-%m-%d')] reads of [datetime.now()]. *)
Record datetime : Type := { year : nat; month : nat; day : nat }.

(** ** Effects *)

(** One observable effect: a line printed, or a call with the response the
    service gave (a raised exception is a response). *)
Inductive event : Type :=
| EvPrint (line : str)
| EvAuth (r : Exc unit)
| EvList (userId q : str) (maxResults : nat) (r : Exc list_response)
| EvGet (userId id format : str) (r : Exc message)
| EvModify (userId id : str) (removeLabelIds : list str) (r : Exc unit)
| EvChat (model : str) (msgs : list chat_message) (r : Exc completion)
| EvSend (userId : str) (msg : MIMEText) (raw : str) (r : Exc unit).

(** The result of running a computation from a world: its value or
    exception, the world it leaves, and the effects it had, in order. *)
Record outcome (W A : Type) : Type :=
  { res : Exc A; final : W; log : list event }.
Arguments res {W A} o.
Arguments final {W A} o.
Arguments log {W A} o.
Arguments Build_outcome {W A} res final log.

Definition M (W A : Type) : Type := W -> outcome W A.

Definition ret {W A} (a : A) : M W A :=
  fun w => {| res := Ok a; final := w; log := [] |}.

Definition raise {W A} (e : exn) : M W A :=
  fun w => {| res := Raise e; final := w; log := [] |}.

(** Sequencing: an exception ends the computation, its effects stay. *)
Definition bind {W A B} (m : M W A) (k : A -> M W B) : M W B :=
  fun w =>
    let o := m w in
    match res o with
    | Ok a =>
        let o' := k a (final o) in
        {| res := res o'; final := final o'; log := log o ++ log o' |}
    | Raise e => {| res := Raise e; final := final o; log := log o |}
    end.

(** The outcome [o] with the effects [t] before its own. *)
Definition prepend {W A} (t : list event) (o : outcome W A) : outcome W A :=
  {| res := res o; final := final o; log := t ++ log o |}.

Declare Scope prog_scope.
Delimit Scope prog_scope with prog.
Notation "'let*' x ':=' m 'in' k" := (bind m (fun x => k))
  (at level 10, x name, m at level 100, k at level 200) : prog_scope.
Notation "m ';;' k" := (bind m (fun _ => k))
  (at level 100, k at level 200, right associativity) : prog_scope.
Local Open Scope prog_scope.

(** A pure library call that may raise. *)
Definition lift {W A} (r : Exc A) : M W A :=
  match r with Ok a => ret a | Raise e => raise e end.

(** [for x in l: s = f(s, x)] *)
Fixpoint foldM {W A S} (f : S -> A -> M W S) (l : list A) (s : S) : M W S :=
  match l with
  | [] => ret s
  | x :: l' => let* s' := f s x in foldM f l' s'
  end.

Definition print {W} (line : str) : M W unit :=
  fun w => {| res := Ok tt; final := w; log := [EvPrint line] |}.

(** Computations all of whose effects satisfy [P], from every world. *)
Definition emits {W A} (P : event -> Prop) (m : M W A) : Prop :=
  forall w, Forall P (log (m w)).

(** ** Formatting *)

Definition digit (n : nat) : char := (48 + N.of_nat (n mod 10))%N.

(** [str(n)] for a natural number: decimal, no leading zero.  [fuel]
    bounds the number of digits. *)
Fixpoint digits_fuel (fuel n : nat) (acc : str) : str :=
  match fuel with
  | 0 => acc
  | S fuel' =>
      if n <? 10 then digit n :: acc
      else digits_fuel fuel' (n / 10) (digit n :: acc)
  end.
Definition str_of_nat (n : nat) : str := digits_fuel (S n) n [].
Arguments str_of_nat : simpl never.

(** [%Y-%m-%d]: the year on four digits, month and day on two, zero padded
    (for the years 1000 to 9999 every platform prints it so). *)
Definition strftime_Ymd (d : datetime) : str :=
  [digit (year d / 1000); digit (year d / 100); digit (year d / 10); digit (year d)]
  ++ py "-" ++ [digit (month d / 10); digit (month d)]
  ++ py "-" ++ [digit (day d / 10); digit (day d)].

(** ** The insertion-ordered dict [summaries] *)

Definition dict : Type := list (str * str).

Definition keys (d : dict) : list str := map fst d.

(** [d[k] = v]: an existing key keeps its place and takes the new value, a
    new key goes last. *)
Fixpoint dict_set (d : dict) (k v : str) : dict :=
  match d with
  | [] => [(k, v)]
  | (k', v') :: d' =>
      if decide (k = k') then (k', v) :: d' else (k', v') :: dict_set d' k v
  end.

(** ** Configuration constants of the source *)

Definition NEWSLETTER_SENDERS : list str :=
  [ py "review@firstround.com";
    py "dan@tldrnewsletter.com";
    py "lenny@substack.com";
    py "andrewchen@substack.com" ].

(** The truncation limit of [summarize_with_gpt]. *)
Definition MAX_CONTENT : nat := 4000.

Definition SYSTEM_PROMPT : str :=
  py "Summarize the following newsletter content in 2-3 concise bullet points.".

Definition ME : str := py "me".
Definition ARCHIVE_LABELS : list str := [py "UNREAD"; py "INBOX"].

(** ** The environment *)

(** The external collaborators, as transition functions over a world [W]
    (mailbox contents, label state, credentials, the model's behaviour),
    and the library functions the program calls. *)
Record environment (W : Type) : Type := {
  (** [get_gmail_service]'s credential cache and OAuth flow *)
  authorize : W -> Exc unit * W;
  (** [service.users().messages().list(userId, q, maxResults).execute()] *)
  messages_list : str -> str -> nat -> W -> Exc list_response * W;
  (** [service.users().messages().get(userId, id, format).execute()] *)
  messages_get : str -> str -> str -> W -> Exc message * W;
  (** [service.users().messages().modify(userId, id, body).execute()] *)
  messages_modify : str -> str -> list str -> W -> Exc unit * W;
  (** [service.users().messages().send(userId, body={'raw': raw}).execute()] *)
  messages_send : str -> str -> W -> Exc unit * W;
  (** [openai.chat.completions.create(model, messages)] *)
  chat_create : str -> list chat_message -> W -> Exc completion * W;
  (** [datetime.now()] *)
  now : W -> datetime;
  (** [base64.urlsafe_b64decode(data).decode()] *)
  b64decode_utf8 : str -> Exc str;
  (** [base64.urlsafe_b64encode(message.as_bytes()).decode('utf-8')] *)
  raw_of_mime : MIMEText -> str
}.
Arguments authorize {W} e.
Arguments messages_list {W} e.
Arguments messages_get {W} e.
Arguments messages_modify {W} e.
Arguments messages_send {W} e.
Arguments chat_create {W} e.
Arguments now {W} e.
Arguments b64decode_utf8 {W} e.
Arguments raw_of_mime {W} e.

(** One call: the response is logged with the request. *)
Definition call {W R} (f : W -> Exc R * W) (ev : Exc R -> event) : M W R :=
  fun w => let rw := f w in
           {| res := rw.1; final := rw.2; log := [ev rw.1] |}.

Section Pipeline.
Context {W : Type} (env : environment W).

(** *** Service calls *)

Definition users_messages_list (userId q : str) (maxResults : nat)
  : M W list_response :=
  call (messages_list env userId q maxResults) (EvList userId q maxResults).

Definition users_messages_get (userId id format : str) : M W message :=
  call (messages_get env userId id format) (EvGet userId id format).

Definition users_messages_modify (userId id : str) (removeLabelIds : list str)
  : M W unit :=
  call (messages_modify env userId id removeLabelIds)
       (EvModify userId id removeLabelIds).

Definition users_messages_send (userId : str) (msg : MIMEText) : M W unit :=
  call (messages_send env userId (raw_of_mime env msg))
       (EvSend userId msg (raw_of_mime env msg)).

Definition chat_completions_create (model : str) (msgs : list chat_message)
  : M W completion :=
  call (chat_create env model msgs) (EvChat model msgs).

Definition datetime_now : M W datetime :=
  fun w => {| res := Ok (now env w); final := w; log := [] |}.

(** *** [get_gmail_service] (lines 23-50): the credential handling is the
    mail provider's; the handle it returns is the world itself. *)
Definition get_gmail_service : M W unit :=
  call (authorize env) EvAuth.

(** *** [get_newsletter_emails] (lines 52-66) *)
Definition unread_query (sender_email : str) : str :=
  py "from:" ++ sender_email ++ py " is:unread".

Definition get_newsletter_emails (sender_email : str) : M W (list message_ref) :=
  let query := unread_query sender_email in
  let* results := users_messages_list ME query 1 in
  ret (default [] (messages results)).

(** *** [get_email_content] (lines 68-91) *)

(** Lines 82-86: the data of the first part when [parts] is present, of
    the top-level body otherwise; a missing [data] key reads as [''].
    [parts[0]] on an empty list raises. *)
Definition select_data (p : payload) : Exc str :=
  match parts p with
  | Some ps =>
      match ps with
      | first :: _ => Ok (default [] (data (part_body first)))
      | [] => Raise IndexError
      end
  | None => Ok (default [] (data (payload_body p)))
  end.

(** Lines 88-91 *)
Definition decode_data (d : str) : Exc str :=
  if truthy d then b64decode_utf8 env d else Ok [].

Definition get_email_content (msg_id : str) : M W str :=
  let* message := users_messages_get ME msg_id (py "full") in
  let* d := lift (select_data (msg_payload message)) in
  lift (decode_data d).

(** *** [summarize_with_gpt] (lines 93-113) *)
Definition truncated_content (content : str) : str :=
  if MAX_CONTENT <? length content
  then take MAX_CONTENT content ++ py "..."
  else content.

Definition summarize_with_gpt (content : str) : M W str :=
  let* completion :=
    chat_completions_create (py "gpt-4")
      [ {| role := py "system"; content := SYSTEM_PROMPT |};
        {| role := py "user"; content := truncated_content content |} ] in
  match choices completion with
  | c :: _ => ret (choice_content c)
  | [] => raise IndexError
  end.

(** *** [send_summary_email] (lines 115-137) *)
Definition digest_header (date_str : str) : str :=
  py "Newsletter Summaries for " ++ date_str ++ [LF; LF].

Definition digest_block (entry : str * str) : str :=
  [LF] ++ py "From " ++ entry.1 ++ py ":" ++ [LF] ++ entry.2 ++ [LF].

Definition digest_body (date_str : str) (summaries : dict) : str :=
  fold_left (fun email_content entry => email_content ++ digest_block entry)
            summaries (digest_header date_str).

Definition digest_message (date_str : str) (summaries : dict) : MIMEText :=
  {| mime_text := digest_body date_str summaries;
     mime_subtype := py "plain";
     mime_to := py "atreya@gmail.com";
     mime_subject := py "Newsletter Summaries - " ++ date_str |}.

Definition send_summary_email (summaries : dict) : M W unit :=
  let* d := datetime_now in
  let date_str := strftime_Ymd d in
  users_messages_send ME (digest_message date_str summaries).

(** *** [archive_email] (lines 139-154) *)
Definition archive_email (msg_id : str) : M W unit :=
  users_messages_modify ME msg_id ARCHIVE_LABELS.

(** *** [main] (lines 156-197) *)

(** Lines 186-189: one message of the inner loop. *)
Definition fetch_and_archive (combined_content : str) (message : message_ref)
  : M W str :=
  let* content := get_email_content (ref_id message) in
  let combined_content := combined_content ++ content ++ [LF; LF] in
  archive_email (ref_id message);;
  ret combined_content.

(** Lines 180-193: the body of the loop over the senders. *)
Definition process_sender (summaries : dict) (sender : str) : M W dict :=
  print (py "Checking emails from: " ++ sender);;
  let* messages := get_newsletter_emails sender in
  print (py "Found " ++ str_of_nat (length messages) ++ py " unread messages");;
  if truthy messages then
    let* combined_content := foldM fetch_and_archive messages [] in
    if truthy combined_content then
      let* summary := summarize_with_gpt combined_content in
      ret (dict_set summaries sender summary)
    else ret summaries
  else ret summaries.

(** Lines 179-193: the loop, from a given value of [summaries]. *)
Definition process_senders (senders : list str) (summaries : dict) : M W dict :=
  foldM process_sender senders summaries.

(** Lines 166-193: everything before the digest is sent.  The assignment
    of [openai.api_key] from the process environment (line 169) has no
    effect of its own: the credential is part of the world the chat call
    is answered from. *)
Definition collect_summaries (senders : list str) : M W dict :=
  print (py "Starting newsletter processing...");;
  print (py "Setting up Gmail service...");;
  get_gmail_service;;
  print (py "Gmail service initialized");;
  process_senders senders [].

(** [main] over a configured sender list. *)
Definition main_with (senders : list str) : M W unit :=
  let* summaries := collect_summaries senders in
  if truthy summaries then send_summary_email summaries else ret tt.

Definition main : M W unit := main_with NEWSLETTER_SENDERS.

End Pipeline.

Arguments unread_query : simpl never.
Arguments truncated_content : simpl never.

(** ** Reading a log *)

(** The unread-message queries issued: query string and result cap. *)
Definition list_query (ev : event) : option (str * nat) :=
  match ev with EvList _ q n _ => Some (q, n) | _ => None end.
Definition list_queries (t : list event) : list (str * nat) := omap list_query t.

(** The archive calls issued: message id and labels removed. *)
Definition archive_call (ev : event) : option (str * list str) :=
  match ev with EvModify _ id ls _ => Some (id, ls) | _ => None end.
Definition archive_calls (t : list event) : list (str * list str) :=
  omap archive_call t.

(** The texts submitted to the summarisation service as user content. *)
Definition chat_input (ev : event) : option str :=
  match ev with
  | EvChat _ msgs _ => Some (default [] (content <$> last msgs))
  | _ => None
  end.
Definition chat_inputs (t : list event) : list str := omap chat_input t.

(** The digests sent. *)
Definition sent_message (ev : event) : option MIMEText :=
  match ev with EvSend _ msg _ _ => Some msg | _ => None end.
Definition sent_messages (t : list event) : list MIMEText := omap sent_message t.

(** The service calls of a log: everything but the printed lines. *)
Definition is_call (ev : event) : bool :=
  match ev with EvPrint _ => false | _ => true end.
Definition service_calls (t : list event) : list event := List.filter is_call t.

(** The messages a list call returned: none when [messages] is absent or
    the call raised. *)
Definition returned (r : Exc list_response) : list message_ref :=
  match r with Ok lr => default [] (messages lr) | Raise _ => [] end.

(** The calls fetching and archiving one message, in program order. *)
Definition fetch_archive_calls (x : message_ref * Exc message * Exc unit)
  : list event :=
  [ EvGet ME (ref_id x.1.1) (py "full") x.1.2;
    EvModify ME (ref_id x.1.1) ARCHIVE_LABELS x.2 ].

(** The effects a sender's step can have after its query. *)
Definition step_tail_event (ev : event) : Prop :=
  match ev with
  | EvPrint _ | EvGet _ _ _ _ | EvModify _ _ _ _ | EvChat _ _ _ => True
  | _ => False
  end.

(** ** Dates *)

Definition is_digit (c : char) : bool := ((48 <=? c) && (c <=? 57))%N.
Definition digit_value (c : char) : nat := N.to_nat (c - 48).

(** Reads back a [YYYY-MM-DD] string: ten characters, digits around two
    hyphens. *)
Definition parse_Ymd (s : str) : option (nat * nat * nat) :=
  match s with
  | [y1; y2; y3; y4; h1; m1; m2; h2; d1; d2] =>
      if forallb is_digit [y1; y2; y3; y4; m1; m2; d1; d2]
         && (h1 =? 45)%N && (h2 =? 45)%N
      then Some (1000 * digit_value y1 + 100 * digit_value y2
                 + 10 * digit_value y3 + digit_value y4,
                 10 * digit_value m1 + digit_value m2,
                 10 * digit_value d1 + digit_value d2)
      else None
  | _ => None
  end.

(** The dates [datetime.now()] can give on which every platform's [%Y]
    agrees. *)
Definition valid_date (d : datetime) : Prop :=
  1000 <= year d < 10 * 1000 /\ 1 <= month d <= 12 /\ 1 <= day d <= 31.

(** ** A concrete environment

    A mailbox as the world: the list query returns the ids of the unread
    mails of the sender, capped; archiving clears the unread flag; the
    summariser answers with a bullet and the first characters of the text;
    the clock stands at 2024-03-09.  The codec is base64url over ASCII
    text. *)

Record mail : Type :=
  { mail_id : str; mail_from : str; mail_payload : payload; mail_unread : bool }.

Definition demo_list (userId q : str) (n : nat) (w : list mail)
  : Exc list_response * list mail :=
  let hits :=
    List.filter (fun m => mail_unread m && bool_decide (q = unread_query (mail_from m))) w in
  (Ok {| messages :=
           match hits with
           | [] => None
           | _ => Some (map (fun m => {| ref_id := mail_id m |}) (take n hits))
           end |}, w).

Definition demo_get (userId id format : str) (w : list mail)
  : Exc message * list mail :=
  match List.find (fun m => bool_decide (mail_id m = id)) w with
  | Some m => (Ok {| msg_payload := mail_payload m |}, w)
  | None => (Raise (ServiceError (py "404")), w)
  end.

Definition demo_modify (userId id : str) (labels : list str) (w : list mail)
  : Exc unit * list mail :=
  match List.find (fun m => bool_decide (mail_id m = id)) w with
  | Some _ =>
      (Ok tt,
       map (fun m =>
              if bool_decide (mail_id m = id) && bool_decide (py "UNREAD" ∈ labels)
              then {| mail_id := mail_id m; mail_from := mail_from m;
                      mail_payload := mail_payload m; mail_unread := false |}
              else m) w)
  | None => (Raise (ServiceError (py "404")), w)
  end.

Definition demo_chat (model : str) (msgs : list chat_message) (w : list mail)
  : Exc completion * list mail :=
  (Ok {| choices :=
           [ {| choice_content :=
                  py "- " ++ take 11 (default [] (content <$> last msgs)) |} ] |},
   w).

Definition b64_value (c : char) : option N :=
  (if (65 <=? c) && (c <=? 90) then Some (c - 65)
   else if (97 <=? c) && (c <=? 122) then Some (c - 71)
   else if (48 <=? c) && (c <=? 57) then Some (c + 4)
   else if (c =? 45) || (c =? 43) then Some 62
   else if (c =? 95) || (c =? 47) then Some 63
   else None)%N.

Fixpoint b64_bytes (sextets : list N) : Exc (list N) :=
  match sextets with
  | [] => Ok []
  | [_] => Raise ValueError
  | [a; b] => Ok [a * 4 + b / 16]%N
  | [a; b; c] => Ok [a * 4 + b / 16; (b mod 16) * 16 + c / 4]%N
  | a :: b :: c :: d :: rest =>
      match b64_bytes rest with
      | Ok bs =>
          Ok ((a * 4 + b / 16) :: ((b mod 16) * 16 + c / 4)
              :: ((c mod 4) * 64 + d) :: bs)%N
      | Raise e => Raise e
      end
  end.

Definition demo_b64decode_utf8 (d : str) : Exc str :=
  let sextets := omap b64_value d in
  let pad := length (List.filter (N.eqb 61) d) in
  if (length sextets + pad) mod 4 =? 0 then
    match b64_bytes sextets with
    | Ok bs => if forallb (fun b => b <? 128)%N bs then Ok bs else Raise ValueError
    | Raise e => Raise e
    end
  else Raise ValueError.

Definition demo_env : environment (list mail) :=
  {| authorize := fun w => (Ok tt, w);
     messages_list := demo_list;
     messages_get := demo_get;
     messages_modify := demo_modify;
     messages_send := fun _ _ w => (Ok tt, w);
     chat_create := demo_chat;
     now := fun _ => {| year := 2024; month := 3; day := 9 |};
     b64decode_utf8 := demo_b64decode_utf8;
     raw_of_mime := fun m => mime_to m ++ [LF] ++ mime_subject m ++ [LF] ++ mime_text m |}.

Definition plain_payload (d : option str) : payload :=
  {| payload_body := {| data := d |}; parts := None |}.

Definition sender_A : str := py "a@example.com".
Definition sender_B : str := py "b@example.com".

(** A has one unread mail, "Hello world" in base64url; B has none. *)
Definition hello_mailbox : list mail :=
  [ {| mail_id := py "m1"; mail_from := sender_A;
       mail_payload := plain_payload (Some (py "SGVsbG8gd29ybGQ="));
       mail_unread := true |} ].

(** One unread issue from a configured sender. *)
Definition lenny_mailbox : list mail :=
  [ {| mail_id := py "m7"; mail_from := py "lenny@substack.com";
       mail_payload := plain_payload (Some (py "SGVsbG8gd29ybGQ="));
       mail_unread := true |} ].

(** A multipart mail: "Hi" in the first part, "Hello world" in the second,
    no data in the top-level body. *)
Definition multipart_mailbox : list mail :=
  [ {| mail_id := py "m3"; mail_from := sender_A;
       mail_payload :=
         {| payload_body := {| data := None |};
            parts := Some [ {| part_body := {| data := Some (py "SGk=") |} |};
                            {| part_body := {| data := Some (py "SGVsbG8gd29ybGQ=") |} |} ] |};
       mail_unread := true |} ].

(** A has one unread mail whose body carries no data. *)
Definition empty_body_mailbox : list mail :=
  [ {| mail_id := py "m2"; mail_from := sender_A;
       mail_payload := plain_payload None;
       mail_unread := true |} ].

(** ** Further readings of a log *)

(** The text a fetch yielded: the decoded data of the body selected in the
    message the service answered with. *)
Definition fetched_text {W} (env : environment W) (ev : event) : option str :=
  match ev with
  | EvGet _ _ _ (Ok msg) =>
      match select_data (msg_payload msg) with
      | Ok d => match decode_data env d with Ok t => Some t | Raise _ => None end
      | Raise _ => None
      end
  | _ => None
  end.

(** The archive calls a query's answer calls for: one per message
    returned, in the order returned. *)
Definition archives_due (ev : event) : list (str * list str) :=
  match ev with
  | EvList _ _ _ r => map (fun m => (ref_id m, ARCHIVE_LABELS)) (returned r)
  | _ => []
  end.

(** The queries that were answered with at least one message. *)
Definition answered_query (ev : event) : option str :=
  match ev with
  | EvList _ q _ r => if truthy (returned r) then Some q else None
  | _ => None
  end.
Definition answered_queries (t : list event) : list str := omap answered_query t.

(** The exception a call was answered with, if it raised. *)
Definition raised (ev : event) : option exn :=
  match ev with
  | EvAuth (Raise e) | EvList _ _ _ (Raise e) | EvGet _ _ _ (Raise e)
  | EvModify _ _ _ (Raise e) | EvChat _ _ (Raise e) | EvSend _ _ _ (Raise e) =>
      Some e
  | _ => None
  end.

(** Computations that stop at the first call that raises: either no call
    of the log raised, or exactly the last one did and its exception is the
    result. *)
Definition fail_fast {W A} (m : M W A) : Prop :=
  forall w,
    Forall (fun ev => raised ev = None) (log (m w))
    \/ (exists pre ev e,
          log (m w) = pre ++ [ev]
          /\ Forall (fun x => raised x = None) pre
          /\ raised ev = Some e
          /\ res (m w) = Raise e).

(** [d.get(k)] *)
Fixpoint dict_get (d : dict) (k : str) : option str :=
  match d with
  | [] => None
  | (k', v) :: d' => if decide (k = k') then Some v else dict_get d' k
  end.

(** The concrete environment with the summarisation service down. *)
Definition demo_env_chat_down : environment (list mail) :=
  {| authorize := authorize demo_env;
     messages_list := messages_list demo_env;
     messages_get := messages_get demo_env;
     messages_modify := messages_modify demo_env;
     messages_send := messages_send demo_env;
     chat_create := fun _ _ w => (Raise (ServiceError (py "503")), w);
     now := now demo_env;
     b64decode_utf8 := b64decode_utf8 demo_env;
     raw_of_mime := raw_of_mime demo_env |}.

(** Two unread mails: "Hello world", and the multipart one whose first
    part is "Hi". *)
Definition two_mail_mailbox : list mail := hello_mailbox ++ multipart_mailbox.

(** A mail whose body data is not base64. *)
Definition garbled_mailbox : list mail :=
  [ {| mail_id := py "m4"; mail_from := sender_A;
       mail_payload := plain_payload (Some (py "S"));
       mail_unread := true |} ].

(** ** [get_gmail_service] in detail (lines 23-50)

    The pipeline above takes the authentication as one call of its
    environment.  Here is the function itself: the credential cache in
    [token.pickle], the validity test, the refresh or the interactive
    flow, the write-back, and the construction of the service.  The file
    system, the credential objects and the network are an environment of
    their own. *)
Module Auth.

(** The calls of the authentication, each with its answer.  [C] are the
    credential objects, [S] the service handles. *)
Inductive auth_event (C S : Type) : Type :=
| AuExists (path : str) (r : bool)
| AuLoad (path : str) (r : Exc (option C))
| AuRefresh (c : C) (r : Exc C)
| AuFlow (secrets : str) (scopes : list str) (port : nat) (r : Exc C)
| AuDump (path : str) (c : C) (r : Exc unit)
| AuBuild (serviceName version : str) (c : C) (r : Exc S).
Arguments AuExists {C S} path r.
Arguments AuLoad {C S} path r.
Arguments AuRefresh {C S} c r.
Arguments AuFlow {C S} secrets scopes port r.
Arguments AuDump {C S} path c r.
Arguments AuBuild {C S} serviceName version c r.

Record auth_outcome (W C S A : Type) : Type :=
  { value : Exc A; world : W; trace : list (auth_event C S) }.
Arguments value {W C S A} _.
Arguments world {W C S A} _.
Arguments trace {W C S A} _.
Arguments Build_auth_outcome {W C S A} value world trace.

Record auth_environment (W C S : Type) : Type := {
  (** [os.path.exists(path)] *)
  os_path_exists : str -> W -> bool;
  (** [with open(path, 'rb') as f: pickle.load(f)]; the object loaded is a
      credential object or something falsy *)
  pickle_load : str -> W -> Exc (option C) * W;
  (** [creds.valid], [creds.expired]: read against the clock *)
  creds_valid : C -> W -> bool;
  creds_expired : C -> W -> bool;
  (** [creds.refresh_token] *)
  creds_refresh_token : C -> option str;
  (** [creds.refresh(Request())]: the credential object after the refresh *)
  creds_refresh : C -> W -> Exc C * W;
  (** [InstalledAppFlow.from_client_secrets_file(secrets, scopes)
        .run_local_server(port=port)] *)
  run_local_server : str -> list str -> nat -> W -> Exc C * W;
  (** [with open(path, 'wb') as f: pickle.dump(creds, f)] *)
  pickle_dump : str -> C -> W -> Exc unit * W;
  (** [build(serviceName, version, credentials=creds)] *)
  build : str -> str -> C -> W -> Exc S * W
}.
Arguments os_path_exists {W C S} _.
Arguments pickle_load {W C S} _.
Arguments creds_valid {W C S} _.
Arguments creds_expired {W C S} _.
Arguments creds_refresh_token {W C S} _.
Arguments creds_refresh {W C S} _.
Arguments run_local_server {W C S} _.
Arguments pickle_dump {W C S} _.
Arguments build {W C S} _.

Definition SCOPES : list str := [py "https://www.googleapis.com/auth/gmail.modify"].
Definition TOKEN : str := py "token.pickle".
Definition SECRETS : str := py "credentials.json".

Section Program.
Context {W C S : Type} (env : auth_environment W C S).

Definition prog (A : Type) : Type := W -> auth_outcome W C S A.

Definition aret {A} (a : A) : prog A :=
  fun w => {| value := Ok a; world := w; trace := [] |}.

Definition abind {A B} (m : prog A) (k : A -> prog B) : prog B :=
  fun w =>
    let o := m w in
    match value o with
    | Ok a =>
        let o' := k a (world o) in
        {| value := value o'; world := world o'; trace := trace o ++ trace o' |}
    | Raise e => {| value := Raise e; world := world o; trace := trace o |}
    end.

(** A call, logged with its answer. *)
Definition acall {R} (f : W -> Exc R * W) (ev : Exc R -> auth_event C S) : prog R :=
  fun w => {| value := (f w).1; world := (f w).2; trace := [ev (f w).1] |}.

(** Reading a property of an object: no call, no change. *)
Definition observe {A} (f : W -> A) : prog A :=
  fun w => {| value := Ok (f w); world := w; trace := [] |}.

Declare Scope auth_scope.
Notation "'let*' x ':=' m 'in' k" := (abind m (fun x => k))
  (at level 10, x name, m at level 100, k at level 200) : auth_scope.
Notation "m ';;' k" := (abind m (fun _ => k))
  (at level 100, k at level 200, right associativity) : auth_scope.
Local Open Scope auth_scope.

Definition path_exists (path : str) : prog bool :=
  fun w => {| value := Ok (os_path_exists env path w); world := w;
              trace := [AuExists path (os_path_exists env path w)] |}.

(** Lines 34-37: the credentials cached in [token.pickle], if the file is
    there. *)
Definition load_cached : prog (option C) :=
  let* found := path_exists TOKEN in
  if found then acall (pickle_load env TOKEN) (AuLoad TOKEN) else aret None.

(** Truthiness of [creds.refresh_token]: a non-empty string. *)
Definition has_refresh_token (c : C) : bool :=
  match creds_refresh_token env c with Some t => truthy t | None => false end.

(** Lines 40-45: refresh credentials that are expired and hold a refresh
    token; run the interactive flow otherwise. *)
Definition renew (creds : option C) : prog C :=
  match creds with
  | Some c =>
      let* expired := observe (creds_expired env c) in
      if expired && has_refresh_token c
      then acall (creds_refresh env c) (AuRefresh c)
      else acall (run_local_server env SECRETS SCOPES 0) (AuFlow SECRETS SCOPES 0)
  | None => acall (run_local_server env SECRETS SCOPES 0) (AuFlow SECRETS SCOPES 0)
  end.

(** Lines 40-48: new credentials, written back to [token.pickle]. *)
Definition obtain (creds : option C) : prog C :=
  let* c := renew creds in
  acall (pickle_dump env TOKEN c) (AuDump TOKEN c);;
  aret c.

Definition get_gmail_service : prog S :=
  let* creds := load_cached in
  let* creds :=
    match creds with
    | Some c =>
        let* valid := observe (creds_valid env c) in
        if valid then aret c else obtain (Some c)
    | None => obtain None
    end in
  acall (build env (py "gmail") (py "v1") creds) (AuBuild (py "gmail") (py "v1") creds).

Local Close Scope auth_scope.
End Program.

(** *** Reading the trace *)

Definition built {C S} (ev : auth_event C S) : option C :=
  match ev with AuBuild _ _ c _ => Some c | _ => None end.

Definition dumped {C S} (ev : auth_event C S) : option (str * C) :=
  match ev with AuDump path c _ => Some (path, c) | _ => None end.

(** The calls that reach the network or ask the user. *)
Definition is_renewal {C S} (ev : auth_event C S) : bool :=
  match ev with AuRefresh _ _ | AuFlow _ _ _ _ => true | _ => false end.

Definition auth_raised {C S} (ev : auth_event C S) : option exn :=
  match ev with
  | AuLoad _ (Raise e) | AuRefresh _ (Raise e) | AuFlow _ _ _ (Raise e)
  | AuDump _ _ (Raise e) | AuBuild _ _ _ (Raise e) => Some e
  | _ => None
  end.

(** The cache file is there and loads as the credentials [c]. *)
Definition cache_holds {W C S} (env : auth_environment W C S) (w : W) (c : C) : Prop :=
  os_path_exists env TOKEN w = true
  /\ exists w', pickle_load env TOKEN w = (Ok (Some c), w').

(** *** A concrete environment: a file that holds what was dumped, a
    service that issues numbered tokens valid until a given time. *)

(** A credential: its token number and whether it carries a refresh
    token. *)
Record demo_creds : Type := { token_no : nat; refreshable : bool }.

(** The world: the content of [token.pickle], the number of the last token
    the provider issued, the tokens it has revoked since. *)
Record demo_world : Type :=
  { token_file : option demo_creds; issued : nat; revoked : list nat }.

Definition demo_auth : auth_environment demo_world demo_creds nat :=
  {| os_path_exists := fun _ w => bool_decide (token_file w <> None);
     pickle_load := fun _ w =>
       match token_file w with
       | Some c => (Ok (Some c), w)
       | None => (Raise (ServiceError (py "FileNotFoundError")), w)
       end;
     creds_valid := fun c w => bool_decide (token_no c ∉ revoked w);
     creds_expired := fun c w => bool_decide (token_no c ∈ revoked w);
     creds_refresh_token := fun c => if refreshable c then Some (py "r") else None;
     creds_refresh := fun c w =>
       (Ok {| token_no := Datatypes.S (issued w); refreshable := true |},
        {| token_file := token_file w; issued := Datatypes.S (issued w);
           revoked := revoked w |});
     run_local_server := fun _ _ _ w =>
       (Ok {| token_no := Datatypes.S (issued w); refreshable := true |},
        {| token_file := token_file w; issued := Datatypes.S (issued w);
           revoked := revoked w |});
     pickle_dump := fun _ c w =>
       (Ok tt, {| token_file := Some c; issued := issued w; revoked := revoked w |});
     build := fun _ _ c w => (Ok (token_no c), w) |}.

(** The same without network: refresh and flow raise. *)
Definition demo_auth_offline : auth_environment demo_world demo_creds nat :=
  {| os_path_exists := os_path_exists demo_auth;
     pickle_load := pickle_load demo_auth;
     creds_valid := creds_valid demo_auth;
     creds_expired := creds_expired demo_auth;
     creds_refresh_token := creds_refresh_token demo_auth;
     creds_refresh := fun _ w => (Raise (ServiceError (py "RefreshError")), w);
     run_local_server := fun _ _ _ w => (Raise (ServiceError (py "offline")), w);
     pickle_dump := pickle_dump demo_auth;
     build := build demo_auth |}.

(** No cache file yet. *)
Definition first_run_world : demo_world :=
  {| token_file := None; issued := 0; revoked := [] |}.

(** A cache file with token 1, still valid. *)
Definition cached_world : demo_world :=
  {| token_file := Some {| token_no := 1; refreshable := true |};
     issued := 1; revoked := [] |}.

(** A cache file with token 1, revoked since. *)
Definition expired_world : demo_world :=
  {| token_file := Some {| token_no := 1; refreshable := true |};
     issued := 1; revoked := [1] |}.

End Auth.

(** * Properties *)

(** ** The definitions on small inputs *)

Example py_sample : py "me" = [109; 101]%N.
Proof. reflexivity. Qed.

Example str_of_nat_samples :
  str_of_nat 0 = py "0" /\ str_of_nat 7 = py "7" /\ str_of_nat 120 = py "120".
Proof. repeat split. Qed.

Example strftime_Ymd_sample :
  strftime_Ymd {| year := 2024; month := 3; day := 9 |} = py "2024-03-09".
Proof. reflexivity. Qed.

(** Assigning an existing key keeps its place; a new key goes last. *)
Example dict_set_samples :
  dict_set [(py "a", py "1"); (py "b", py "2")] (py "a") (py "3")
  = [(py "a", py "3"); (py "b", py "2")]
  /\ dict_set [(py "a", py "1"); (py "b", py "2")] (py "c") (py "3")
     = [(py "a", py "1"); (py "b", py "2"); (py "c", py "3")].
Proof. split; reflexivity. Qed.

Example truncated_content_samples :
  truncated_content (replicate 4001 97%N) = replicate 4000 97%N ++ py "..."
  /\ truncated_content (replicate 4000 97%N) = replicate 4000 97%N
  /\ truncated_content (py "Hello world") = py "Hello world".
Proof. repeat split; vm_compute; reflexivity. Qed.

Example demo_b64decode_utf8_samples :
  demo_b64decode_utf8 (py "SGVsbG8gd29ybGQ=") = Ok (py "Hello world")
  /\ demo_b64decode_utf8 (py "SGk") = Raise ValueError.
Proof. split; reflexivity. Qed.

(** The run over the senders A and B on the mailbox holding A's "Hello
    world": one query each, one fetch and one archive call for A's mail,
    one summarisation, one digest with a single block. *)
Example hello_run :
  let o := main_with demo_env [sender_A; sender_B] hello_mailbox in
  res o = Ok tt
  /\ list_queries (log o)
     = [(py "from:a@example.com is:unread", 1); (py "from:b@example.com is:unread", 1)]
  /\ archive_calls (log o) = [(py "m1", [py "UNREAD"; py "INBOX"])]
  /\ chat_inputs (log o) = [py "Hello world" ++ [LF; LF]]
  /\ map mime_text (sent_messages (log o))
     = [ py "Newsletter Summaries for 2024-03-09" ++ [LF; LF]
         ++ [LF] ++ py "From a@example.com:" ++ [LF] ++ py "- Hello world" ++ [LF] ].
Proof. repeat split. Qed.

(** ** Sequencing *)

Section Monad.
Context {W : Type}.

Lemma res_bind {A B} (m : M W A) (k : A -> M W B) w :
  res (bind m k w) =
  match res (m w) with
  | Ok a => res (k a (final (m w)))
  | Raise e => Raise e
  end.
Proof. unfold bind. destruct (res (m w)); reflexivity. Qed.

Lemma log_bind {A B} (m : M W A) (k : A -> M W B) w :
  log (bind m k w) =
  log (m w) ++
  match res (m w) with
  | Ok a => log (k a (final (m w)))
  | Raise _ => []
  end.
Proof. unfold bind. destruct (res (m w)); simpl; [reflexivity|]. by rewrite app_nil_r. Qed.

Lemma final_bind {A B} (m : M W A) (k : A -> M W B) w :
  final (bind m k w) =
  match res (m w) with
  | Ok a => final (k a (final (m w)))
  | Raise _ => final (m w)
  end.
Proof. unfold bind. destruct (res (m w)); reflexivity. Qed.

Lemma outcome_eq {A} (o1 o2 : outcome W A) :
  res o1 = res o2 -> final o1 = final o2 -> log o1 = log o2 -> o1 = o2.
Proof. destruct o1, o2; simpl; intros; subst; reflexivity. Qed.

Lemma bind_ret_l {A B} (a : A) (k : A -> M W B) w : bind (ret a) k w = k a w.
Proof. apply outcome_eq; reflexivity. Qed.

Lemma bind_assoc {A B C} (m : M W A) (k : A -> M W B) (h : B -> M W C) w :
  bind (bind m k) h w = bind m (fun a => bind (k a) h) w.
Proof.
  apply outcome_eq;
    rewrite ?res_bind, ?final_bind, ?log_bind, ?res_bind, ?final_bind;
    destruct (res (m w)); simpl;
    rewrite ?res_bind, ?final_bind, ?log_bind, ?app_nil_r; try reflexivity.
  destruct (res (k a (final (m w)))); simpl; by rewrite <- ?app_assoc, ?app_nil_r.
Qed.

Lemma bind_ext {A B} (m : M W A) (k k' : A -> M W B) w :
  (forall a w', k a w' = k' a w') -> bind m k w = bind m k' w.
Proof.
  intros H. unfold bind. destruct (res (m w)); [|reflexivity]. by rewrite H.
Qed.

Lemma bind_print {B} line (k : unit -> M W B) w :
  bind (print line) k w = prepend [EvPrint line] (k tt w).
Proof. reflexivity. Qed.

Lemma bind_call {R B} (f : W -> Exc R * W) ev (k : R -> M W B) w :
  bind (call f ev) k w =
    prepend [ev (f w).1]
      match (f w).1 with
      | Ok a => k a (f w).2
      | Raise e => raise e (f w).2
      end.
Proof.
  unfold bind, call, prepend. cbn [res final log].
  destruct (f w).1; reflexivity.
Qed.

(** A loop over [l1 ++ l2] is the loop over [l1] followed by the loop over
    [l2] from the state the first one left. *)
Lemma foldM_app {A S} (f : S -> A -> M W S) l1 l2 s w :
  foldM f (l1 ++ l2) s w = bind (foldM f l1 s) (foldM f l2) w.
Proof.
  revert s w. induction l1 as [|x l1 IH]; intros s w.
  - simpl. by rewrite bind_ret_l.
  - simpl. rewrite bind_assoc. apply bind_ext. intros s' w'. apply IH.
Qed.

(** *** Computations all of whose effects satisfy a predicate *)

Lemma emits_ret {A} P (a : A) : emits P (@ret W A a).
Proof. intros w. constructor. Qed.

Lemma emits_raise {A} P e : emits P (@raise W A e).
Proof. intros w. constructor. Qed.

Lemma emits_lift {A} P (r : Exc A) : emits P (@lift W A r).
Proof. destruct r; [apply emits_ret | apply emits_raise]. Qed.

Lemma emits_bind {A B} P (m : M W A) (k : A -> M W B) :
  emits P m -> (forall a, emits P (k a)) -> emits P (bind m k).
Proof.
  intros Hm Hk w. rewrite log_bind. apply Forall_app. split; [apply Hm|].
  destruct (res (m w)); [apply Hk | constructor].
Qed.

Lemma emits_call {R} P (f : W -> Exc R * W) ev :
  (forall r, P (ev r)) -> emits P (call f ev).
Proof. intros H w. simpl. repeat constructor. apply H. Qed.

Lemma emits_print P line : P (EvPrint line) -> emits P (@print W line).
Proof. intros H w. simpl. by repeat constructor. Qed.

Lemma emits_foldM {A S} P (f : S -> A -> M W S) l s :
  (forall s x, emits P (f s x)) -> emits P (foldM f l s).
Proof.
  intros Hf. revert s. induction l as [|x l IH]; intros s; simpl.
  - apply emits_ret.
  - apply emits_bind; [apply Hf | apply IH].
Qed.

End Monad.

Lemma omap_none_Forall {A B} (f : A -> option B) (l : list A) :
  Forall (fun x => f x = None) l -> omap f l = [].
Proof. induction 1 as [|x l Hx _ IH]; simpl; [done|]. by rewrite Hx. Qed.

(** ** The dict *)

Lemma keys_dict_set (d : dict) (k v : str) :
  keys (dict_set d k v) = if decide (k ∈ keys d) then keys d else keys d ++ [k].
Proof.
  induction d as [|[k' v'] d IH]; [reflexivity|].
  cbn [dict_set keys map fst]. destruct (decide (k = k')) as [->|Hne].
  - rewrite decide_True by left. reflexivity.
  - cbn [map fst]. fold (keys (dict_set d k v)). rewrite IH. fold (keys d).
    destruct (decide (k ∈ keys d)) as [Hin|Hout].
    + rewrite decide_True by (by right). reflexivity.
    + rewrite decide_False; [reflexivity|].
      intros [?|?]%elem_of_cons; contradiction.
Qed.

Lemma NoDup_keys_dict_set (d : dict) (k v : str) :
  NoDup (keys d) -> NoDup (keys (dict_set d k v)).
Proof.
  intros Hd. rewrite keys_dict_set. destruct (decide (k ∈ keys d)); [done|].
  apply NoDup_app. split; [done|]. split; [|apply NoDup_singleton].
  intros x Hx ->%list_elem_of_singleton. contradiction.
Qed.

Lemma sublist_keys_dict_set (d : dict) (k v : str) (done : list str) :
  keys d `sublist_of` done -> keys (dict_set d k v) `sublist_of` done ++ [k].
Proof.
  intros Hd. rewrite keys_dict_set. destruct (decide (k ∈ keys d)).
  - by apply sublist_inserts_r.
  - by apply sublist_app.
Qed.

(** ** Dates and the digest text *)

Lemma is_digit_digit (n : nat) : is_digit (digit n) = true.
Proof.
  unfold is_digit, digit. pose proof (Nat.mod_upper_bound n 10).
  apply andb_true_intro. split; apply N.leb_le; lia.
Qed.

Lemma digit_value_digit (n : nat) : digit_value (digit n) = n mod 10.
Proof. unfold digit_value, digit. lia. Qed.

Lemma decimal_four (y : nat) :
  y < 10 * 1000 ->
  1000 * ((y / 1000) mod 10) + 100 * ((y / 100) mod 10)
  + 10 * ((y / 10) mod 10) + y mod 10 = y.
Proof.
  intros Hy.
  pose proof (Nat.div_mod_eq y 10) as H1.
  pose proof (Nat.div_mod_eq (y / 10) 10) as H2.
  pose proof (Nat.div_mod_eq (y / 100) 10) as H3.
  replace (y / 10 / 10) with (y / 100) in H2 by (by rewrite Nat.Div0.div_div).
  replace (y / 100 / 10) with (y / 1000) in H3 by (by rewrite Nat.Div0.div_div).
  assert (y / 1000 < 10) by (apply Nat.Div0.div_lt_upper_bound; lia).
  rewrite (Nat.mod_small (y / 1000) 10) by lia.
  lia.
Qed.

Lemma decimal_two (n : nat) :
  n < 100 -> 10 * ((n / 10) mod 10) + n mod 10 = n.
Proof.
  intros Hn.
  pose proof (Nat.div_mod_eq n 10) as H1.
  assert (n / 10 < 10) by (apply Nat.Div0.div_lt_upper_bound; lia).
  rewrite (Nat.mod_small (n / 10) 10) by lia.
  lia.
Qed.

(** The date string reads back as the date it was printed from. *)
Lemma parse_strftime_Ymd (d : datetime) :
  valid_date d -> parse_Ymd (strftime_Ymd d) = Some (year d, month d, day d).
Proof.
  intros (Hy & Hm & Hd). unfold strftime_Ymd.
  change (py "-") with [45%N]. cbn [app parse_Ymd forallb].
  rewrite !is_digit_digit, !digit_value_digit. cbn [andb N.eqb Pos.eqb].
  rewrite decimal_four by lia. rewrite !decimal_two by lia. reflexivity.
Qed.

(** The loop building the body appends one block per entry, in order. *)
Lemma digest_body_blocks (date_str : str) (summaries : dict) :
  digest_body date_str summaries
  = digest_header date_str ++ concat (map digest_block summaries).
Proof.
  unfold digest_body. generalize (digest_header date_str) as acc.
  induction summaries as [|e l IH]; intros acc; cbn [fold_left map concat].
  - by rewrite app_nil_r.
  - rewrite IH. by rewrite <- app_assoc.
Qed.

(** ** Properties of the pipeline *)

Section Properties.
Context {W : Type} (env : environment W).

(** *** Summarisation *)

Lemma truncated_content_long (content : str) :
  4000 < length content ->
  truncated_content content = take 4000 content ++ py "...".
Proof.
  intros H. unfold truncated_content, MAX_CONTENT.
  destruct (Nat.ltb_spec 4000 (length content)); [reflexivity | lia].
Qed.

Lemma truncated_content_short (content : str) :
  length content <= 4000 -> truncated_content content = content.
Proof.
  intros H. unfold truncated_content, MAX_CONTENT.
  destruct (Nat.ltb_spec 4000 (length content)); [lia | reflexivity].
Qed.

(** [summarize_with_gpt] makes exactly one call, whatever it answers. *)
Lemma summarize_with_gpt_log (content : str) (w : W) :
  log (summarize_with_gpt env content w) =
    [EvChat (py "gpt-4")
       [ {| role := py "system"; content := SYSTEM_PROMPT |};
         {| role := py "user"; content := truncated_content content |} ]
       (chat_create env (py "gpt-4")
          [ {| role := py "system"; content := SYSTEM_PROMPT |};
            {| role := py "user"; content := truncated_content content |} ] w).1].
Proof.
  unfold summarize_with_gpt. rewrite log_bind. simpl.
  destruct (chat_create env _ _ w).1 as [c|e]; simpl; [|reflexivity].
  destruct (choices c); reflexivity.
Qed.

(** C3: the text submitted to the summarisation service is the first 4000
    characters of the input followed by the marker "..." when the input
    is longer than 4000 characters, and the input itself otherwise. *)
Theorem C3_truncation (content : str) (w : W) :
  exists submitted r,
    log (summarize_with_gpt env content w) =
      [EvChat (py "gpt-4")
         [ {| role := py "system"; content := SYSTEM_PROMPT |};
           {| role := py "user"; content := submitted |} ] r]
    /\ (4000 < length content ->
        submitted = take 4000 content ++ py "..."
        /\ length submitted = 4003)
    /\ (length content <= 4000 -> submitted = content).
Proof.
  eexists _, _. split; [apply summarize_with_gpt_log|]. split.
  - intros H. rewrite truncated_content_long by exact H.
    split; [reflexivity|].
    rewrite length_app, length_take. change (length (py "...")) with 3. lia.
  - apply truncated_content_short.
Qed.

(** *** Fetching the content of a message *)

Lemma get_email_content_unfold (msg_id : str) (w : W) :
  get_email_content env msg_id w =
    let rw := messages_get env ME msg_id (py "full") w in
    {| res := match rw.1 with
              | Ok m => match select_data (msg_payload m) with
                        | Ok d => decode_data env d
                        | Raise e => Raise e
                        end
              | Raise e => Raise e
              end;
       final := rw.2;
       log := [EvGet ME msg_id (py "full") rw.1] |}.
Proof.
  unfold get_email_content.
  apply outcome_eq; rewrite ?res_bind, ?final_bind, ?log_bind; simpl;
    destruct (messages_get env ME msg_id (py "full") w).1 as [m|e]; simpl;
    try reflexivity;
    rewrite ?res_bind, ?final_bind, ?log_bind;
    destruct (select_data (msg_payload m)) as [d|e]; simpl; try reflexivity;
    destruct (decode_data env d); reflexivity.
Qed.

(** C9: of a fetched message, the body decoded is the first sub-part's
    when the payload has sub-parts and the top-level body otherwise; its
    decoded data is returned, and the empty string when it carries no data
    field. *)
Theorem C9_content_selection (msg_id : str) (w w' : W) (m : message) (b : body) :
  messages_get env ME msg_id (py "full") w = (Ok m, w') ->
  (exists first rest,
      parts (msg_payload m) = Some (first :: rest) /\ b = part_body first)
  \/ (parts (msg_payload m) = None /\ b = payload_body (msg_payload m)) ->
  (forall d, data b = Some d -> d <> [] ->
     res (get_email_content env msg_id w) = b64decode_utf8 env d)
  /\ (data b = None -> res (get_email_content env msg_id w) = Ok [])
  /\ log (get_email_content env msg_id w) = [EvGet ME msg_id (py "full") (Ok m)].
Proof.
  intros Hget Hsel. rewrite get_email_content_unfold, Hget. simpl.
  assert (Hd : select_data (msg_payload m) = Ok (default [] (data b))).
  { unfold select_data.
    destruct Hsel as [(first & rest & -> & ->) | [-> ->]]; reflexivity. }
  rewrite Hd. repeat split.
  - intros d -> Hne. simpl. unfold decode_data. destruct d; [done | reflexivity].
  - intros ->. reflexivity.
Qed.

(** *** One sender *)

Lemma get_newsletter_emails_unfold (sender : str) (w : W) :
  get_newsletter_emails env sender w =
    let rw := messages_list env ME (unread_query sender) 1 w in
    {| res := match rw.1 with
              | Ok lr => Ok (default [] (messages lr))
              | Raise e => Raise e
              end;
       final := rw.2;
       log := [EvList ME (unread_query sender) 1 rw.1] |}.
Proof.
  unfold get_newsletter_emails, users_messages_list, call, bind, ret. simpl.
  destruct (messages_list env ME (unread_query sender) 1 w).1; reflexivity.
Qed.

Lemma fetch_and_archive_unfold (c : str) (m : message_ref) (w : W) :
  fetch_and_archive env c m w =
    let o := get_email_content env (ref_id m) w in
    match res o with
    | Ok text =>
        let rw := messages_modify env ME (ref_id m) ARCHIVE_LABELS (final o) in
        {| res := match rw.1 with
                  | Ok _ => Ok (c ++ text ++ [LF; LF])
                  | Raise e => Raise e
                  end;
           final := rw.2;
           log := log o ++ [EvModify ME (ref_id m) ARCHIVE_LABELS rw.1] |}
    | Raise e => {| res := Raise e; final := final o; log := log o |}
    end.
Proof.
  unfold fetch_and_archive, archive_email, users_messages_modify, call.
  unfold bind at 1. simpl.
  destruct (res (get_email_content env (ref_id m) w)) as [text|e]; [|reflexivity].
  unfold bind, ret. simpl.
  destruct (messages_modify env ME (ref_id m) ARCHIVE_LABELS _).1; simpl;
    [|reflexivity].
  reflexivity.
Qed.

Lemma process_sender_unfold (d : dict) (s : str) (w : W) :
  process_sender env d s w =
    prepend [EvPrint (py "Checking emails from: " ++ s)]
      (let rw := messages_list env ME (unread_query s) 1 w in
       prepend [EvList ME (unread_query s) 1 rw.1]
         match rw.1 with
         | Raise e => raise e rw.2
         | Ok lr =>
             let msgs := default [] (messages lr) in
             prepend
               [EvPrint (py "Found " ++ str_of_nat (length msgs)
                         ++ py " unread messages")]
               (if truthy msgs then
                  bind (foldM (fetch_and_archive env) msgs [])
                    (fun c =>
                       if truthy c then
                         bind (summarize_with_gpt env c)
                              (fun v => ret (dict_set d s v))
                       else ret d) rw.2
                else ret d rw.2)
         end).
Proof.
  unfold process_sender. rewrite bind_print. f_equal.
  unfold get_newsletter_emails, users_messages_list.
  rewrite bind_assoc, bind_call. cbv zeta. f_equal.
  destruct (messages_list env ME (unread_query s) 1 w).1 as [lr|e];
    [|reflexivity].
  rewrite bind_ret_l, bind_print. f_equal.
  destruct (default [] (messages lr)); reflexivity.
Qed.

Lemma log_prepend {A} t (o : outcome W A) : log (prepend t o) = t ++ log o.
Proof. reflexivity. Qed.

Lemma res_prepend {A} t (o : outcome W A) : res (prepend t o) = res o.
Proof. reflexivity. Qed.

Lemma get_email_content_log (msg_id : str) (w : W) :
  log (get_email_content env msg_id w) =
    [EvGet ME msg_id (py "full") (messages_get env ME msg_id (py "full") w).1].
Proof. by rewrite get_email_content_unfold. Qed.

Lemma get_email_content_fetched (msg_id : str) (w : W) (text : str) :
  res (get_email_content env msg_id w) = Ok text ->
  exists msg, (messages_get env ME msg_id (py "full") w).1 = Ok msg.
Proof.
  rewrite get_email_content_unfold. cbn [res].
  destruct (messages_get env ME msg_id (py "full") w).1 as [msg|e];
    [by exists msg | discriminate].
Qed.

(** The buffer is not empty once a message has been appended. *)
Lemma truthy_separator (c T : str) : truthy (c ++ T ++ [LF; LF]) = true.
Proof. destruct c; [destruct T|]; reflexivity. Qed.

(** The loop over one message: fetch, archive, and the buffer grows by the
    text and a blank line. *)
Lemma fetch_one (m : message_ref) (c T : str) (w w3 : W) :
  res (get_email_content env (ref_id m) w) = Ok T ->
  messages_modify env ME (ref_id m) ARCHIVE_LABELS
    (final (get_email_content env (ref_id m) w)) = (Ok tt, w3) ->
  foldM (fetch_and_archive env) [m] c w =
    {| res := Ok (c ++ T ++ [LF; LF]);
       final := w3;
       log := log (get_email_content env (ref_id m) w)
              ++ [EvModify ME (ref_id m) ARCHIVE_LABELS (Ok tt)] |}.
Proof.
  intros HT Har. cbn [foldM].
  apply outcome_eq; rewrite ?res_bind, ?final_bind, ?log_bind;
    rewrite fetch_and_archive_unfold; cbv zeta; rewrite HT, Har;
    cbn [res final log fst snd ret]; by rewrite ?app_nil_r.
Qed.

(** *** The loop over the messages of one sender *)

Lemma fetch_and_archive_cons (m : message_ref) (ms : list message_ref)
    (c : str) (w : W) :
  foldM (fetch_and_archive env) (m :: ms) c w =
    let gr := (messages_get env ME (ref_id m) (py "full") w).1 in
    let o := get_email_content env (ref_id m) w in
    prepend [EvGet ME (ref_id m) (py "full") gr]
      match res o with
      | Ok text =>
          let rw := messages_modify env ME (ref_id m) ARCHIVE_LABELS (final o) in
          prepend [EvModify ME (ref_id m) ARCHIVE_LABELS rw.1]
            match rw.1 with
            | Ok _ => foldM (fetch_and_archive env) ms (c ++ text ++ [LF; LF]) rw.2
            | Raise e => raise e rw.2
            end
      | Raise e => raise e (final o)
      end.
Proof.
  cbn [foldM]. unfold bind at 1. rewrite fetch_and_archive_unfold. cbv zeta.
  rewrite get_email_content_log.
  destruct (res (get_email_content env (ref_id m) w)) as [text|e];
    [|reflexivity].
  cbn [res final log].
  destruct (messages_modify env ME (ref_id m) ARCHIVE_LABELS _).1;
    [|reflexivity].
  unfold prepend. cbn [res final log app]. reflexivity.
Qed.

(** How the loop can end: every message fetched and archived; or an
    archive call raised; or a fetch (the call or the decoding) raised. *)
Lemma fetch_loop_calls (msgs : list message_ref) (c : str) (w : W) :
  let o := foldM (fetch_and_archive env) msgs c w in
  exists done tail rest,
    log o = flat_map fetch_archive_calls done ++ tail
    /\ msgs = map (fun x => x.1.1) done ++ rest
    /\ Forall (fun x => exists msg, x.1.2 = Ok msg) done
    /\ ((tail = [] /\ rest = [] /\ exists c', res o = Ok c')
        \/ (tail = [] /\ exists e, res o = Raise e)
        \/ (exists m rest' gr e,
              rest = m :: rest'
              /\ tail = [EvGet ME (ref_id m) (py "full") gr]
              /\ res o = Raise e)).
Proof.
  revert c w. induction msgs as [|m ms IH]; intros c w o.
  - exists [], [], []. repeat split; [constructor|]. left. repeat split. by exists c.
  - subst o. rewrite fetch_and_archive_cons. cbv zeta.
    destruct (res (get_email_content env (ref_id m) w)) as [text|e] eqn:Htext.
    + apply get_email_content_fetched in Htext as Hmsg.
      destruct (messages_modify env ME (ref_id m) ARCHIVE_LABELS _)
        as [[u|e] w3] eqn:Har; cbn [fst snd].
      * destruct (IH (c ++ text ++ [LF; LF]) w3)
          as (done & tail & rest & Hlog & Hmsgs & Hdone & Hend).
        exists ((m, (messages_get env ME (ref_id m) (py "full") w).1, Ok u) :: done),
          tail, rest.
        rewrite !log_prepend, !res_prepend, Hlog.
        split; [reflexivity|]. split; [by rewrite Hmsgs|].
        split; [by constructor | exact Hend].
      * exists [(m, (messages_get env ME (ref_id m) (py "full") w).1, Raise e)],
          [], ms.
        split; [reflexivity|]. split; [reflexivity|].
        split; [by repeat constructor|].
        right. left. split; [reflexivity|]. by exists e.
    + exists [], [EvGet ME (ref_id m) (py "full")
                    (messages_get env ME (ref_id m) (py "full") w).1], (m :: ms).
      split; [reflexivity|]. split; [reflexivity|]. split; [constructor|].
      right. right.
      by exists m, ms, (messages_get env ME (ref_id m) (py "full") w).1, e.
Qed.

(** The buffer a completed loop leaves: the one it started from when there
    was no message, extended and ending in a blank line otherwise. *)
Lemma fetch_loop_buffer (msgs : list message_ref) (c c' : str) (w : W) :
  res (foldM (fetch_and_archive env) msgs c w) = Ok c' ->
  (msgs = [] /\ c' = c) \/ (exists x, c' = c ++ x ++ [LF; LF]).
Proof.
  revert c w. induction msgs as [|m ms IH]; intros c w.
  - cbn. intros [= <-]. by left.
  - rewrite fetch_and_archive_cons. cbv zeta. rewrite res_prepend.
    destruct (res (get_email_content env (ref_id m) w)) as [text|e];
      [|discriminate].
    rewrite res_prepend.
    destruct (messages_modify env ME (ref_id m) ARCHIVE_LABELS _).1;
      [|discriminate].
    intros [[-> ->] | [x ->]]%IH; right.
    + by exists text.
    + exists (text ++ [LF; LF] ++ x). by rewrite <- !app_assoc.
Qed.

(** The guard on the buffer never skips: after at least one message the
    buffer is not empty, whatever the messages held. *)
Lemma combined_content_truthy (msgs : list message_ref) (c' : str) (w : W) :
  msgs <> [] ->
  res (foldM (fetch_and_archive env) msgs [] w) = Ok c' ->
  truthy c' = true.
Proof.
  intros Hne [[-> _] | [x ->]]%fetch_loop_buffer; [done|].
  apply (truthy_separator [] x).
Qed.

Lemma service_calls_app (t1 t2 : list event) :
  service_calls (t1 ++ t2) = service_calls t1 ++ service_calls t2.
Proof. apply List.filter_app. Qed.

Lemma service_calls_fetch_archive done :
  service_calls (flat_map fetch_archive_calls done)
  = flat_map fetch_archive_calls done.
Proof.
  induction done as [|x done IH]; [reflexivity|].
  cbn [flat_map]. rewrite service_calls_app, IH. reflexivity.
Qed.

(** C8: in the processing of one sender, whatever its outcome, the calls
    after the query are, for each message in turn, its fetch (answered
    with the message) immediately followed by its archive call (removing
    UNREAD and INBOX); a fetch is left without its archive call only when
    fetching or decoding raised and ended the run; and the summarisation
    call, if any, comes last, after every returned message has been
    fetched and archived, whatever the service then answers. *)
Theorem C8_archive_follows_fetch (d : dict) (s : str) (w : W) :
  let o := process_sender env d s w in
  exists r done tail rest,
    service_calls (log o) =
      EvList ME (unread_query s) 1 r :: flat_map fetch_archive_calls done ++ tail
    /\ returned r = map (fun x => x.1.1) done ++ rest
    /\ Forall (fun x => exists msg, x.1.2 = Ok msg) done
    /\ (tail = []
        \/ (exists m rest' gr e,
              rest = m :: rest'
              /\ tail = [EvGet ME (ref_id m) (py "full") gr]
              /\ res o = Raise e)
        \/ (exists c cr,
              rest = []
              /\ tail =
                   [EvChat (py "gpt-4")
                      [ {| role := py "system"; content := SYSTEM_PROMPT |};
                        {| role := py "user"; content := truncated_content c |} ]
                      cr])).
Proof.
  intros o. subst o. rewrite process_sender_unfold. cbv zeta.
  destruct (messages_list env ME (unread_query s) 1 w) as [[lr|e] w1];
    cbn [fst snd].
  2: { exists (Raise e), [], [], []. repeat split; [constructor | by left]. }
  exists (Ok lr). cbn [returned].
  destruct (default [] (messages lr)) as [|m ms] eqn:Hmsgs; cbn [truthy].
  { exists [], [], []. repeat split; [constructor | by left]. }
  destruct (fetch_loop_calls (m :: ms) [] w1)
    as (done & tail & rest & Hlog & Hsplit & Hdone & Hend).
  rewrite !res_prepend, !log_prepend, res_bind, log_bind, Hlog.
  destruct Hend as [(-> & -> & c' & Hc') | [(-> & e & He) | Hget]].
  - rewrite Hc'.
    rewrite (combined_content_truthy (m :: ms) c' w1) by done.
    rewrite log_bind, summarize_with_gpt_log.
    exists done, [EvChat (py "gpt-4")
                    [ {| role := py "system"; content := SYSTEM_PROMPT |};
                      {| role := py "user"; content := truncated_content c' |} ]
                    (chat_create env (py "gpt-4")
                       [ {| role := py "system"; content := SYSTEM_PROMPT |};
                         {| role := py "user"; content := truncated_content c' |} ]
                       (final (foldM (fetch_and_archive env) (m :: ms) [] w1))).1],
      [].
    split; [|split; [exact Hsplit | split; [exact Hdone | right; right; eauto]]].
    rewrite !service_calls_app, service_calls_fetch_archive.
    destruct (res (summarize_with_gpt env c' _)); by rewrite !app_nil_r.
  - rewrite He. exists done, [], rest.
    split; [|split; [exact Hsplit | split; [exact Hdone | by left]]].
    rewrite !service_calls_app, !app_nil_r, service_calls_fetch_archive.
    reflexivity.
  - destruct Hget as (m' & rest' & gr & e & -> & -> & He). rewrite He.
    exists done, [EvGet ME (ref_id m') (py "full") gr], (m' :: rest').
    split; [|split; [exact Hsplit | split; [exact Hdone | right; left; eauto 10]]].
    rewrite !app_nil_r, !service_calls_app, service_calls_fetch_archive.
    reflexivity.
Qed.

(** What a completed step did to [summaries]: nothing when the query
    returned no message, one assignment at the sender's key otherwise. *)
Lemma process_sender_result (d d' : dict) (s : str) (w : W) :
  res (process_sender env d s w) = Ok d' ->
  exists lr,
    (messages_list env ME (unread_query s) 1 w).1 = Ok lr
    /\ ((default [] (messages lr) = [] /\ d' = d)
        \/ (default [] (messages lr) <> [] /\ exists v, d' = dict_set d s v)).
Proof.
  rewrite process_sender_unfold. cbv zeta. rewrite !res_prepend.
  destruct (messages_list env ME (unread_query s) 1 w).1 as [lr|e];
    [|discriminate].
  rewrite res_prepend. intros H. exists lr. split; [reflexivity|].
  destruct (default [] (messages lr)) as [|m ms] eqn:Hmsgs.
  - left. split; [reflexivity|]. by injection H.
  - right. split; [done|]. cbn [truthy] in H. rewrite res_bind in H.
    destruct (res (foldM (fetch_and_archive env) (m :: ms) [] _)) as [c|e] eqn:Hc;
      [|discriminate].
    rewrite (combined_content_truthy (m :: ms) c _) in H by done.
    rewrite res_bind in H.
    destruct (res (summarize_with_gpt env c _)) as [v|e]; [|discriminate].
    exists v. by injection H.
Qed.

(** Every step logs its query with the response. *)
Lemma process_sender_query_logged (d : dict) (s : str) (w : W) :
  EvList ME (unread_query s) 1 (messages_list env ME (unread_query s) 1 w).1
  ∈ log (process_sender env d s w).
Proof.
  rewrite process_sender_unfold. cbv zeta. rewrite !log_prepend.
  apply elem_of_app. right. apply elem_of_app. left. by left.
Qed.

Lemma process_senders_cons (s : str) (l : list str) (d : dict) (w : W) :
  process_senders env (s :: l) d w =
    bind (process_sender env d s) (process_senders env l) w.
Proof. reflexivity. Qed.

(** The loop over a list of senders passes through the state the loop over
    any prefix of it leaves. *)
Lemma process_senders_app (pre post : list str) (d : dict) (w : W) :
  process_senders env (pre ++ post) d w =
    bind (process_senders env pre d) (process_senders env post) w.
Proof. apply foldM_app. Qed.

(** The keys stay without repetition and in the order of the senders. *)
Lemma process_senders_keys (l done : list str) (d d' : dict) (w : W) :
  res (process_senders env l d w) = Ok d' ->
  NoDup (keys d) -> keys d `sublist_of` done ->
  NoDup (keys d') /\ keys d' `sublist_of` done ++ l.
Proof.
  revert done d w. induction l as [|s l IH]; intros done d w.
  - cbn. intros [= <-] Hnd Hsub. by rewrite app_nil_r.
  - rewrite process_senders_cons, res_bind.
    destruct (res (process_sender env d s w)) as [d1|e] eqn:Hstep;
      [|discriminate].
    intros Hrest Hnd Hsub.
    replace (done ++ s :: l) with ((done ++ [s]) ++ l)
      by (by rewrite <- app_assoc).
    apply (IH _ _ _ Hrest).
    + apply process_sender_result in Hstep
        as (lr & _ & [[_ ->] | [_ [v ->]]]); [done|].
      by apply NoDup_keys_dict_set.
    + apply process_sender_result in Hstep
        as (lr & _ & [[_ ->] | [_ [v ->]]]).
      * by apply sublist_inserts_r.
      * by apply sublist_keys_dict_set.
Qed.

(** C10: after the loop has processed any prefix of the configured sender
    list (so at every point during the run, and at its end), every key of
    [summaries] is a configured sender, no key is repeated, and the keys in
    insertion order are a subsequence of the sender list. *)
Theorem C10_summaries_invariant
    (senders pre post : list str) (w : W) (d : dict) :
  senders = pre ++ post ->
  res (process_senders env pre [] w) = Ok d ->
  process_senders env senders [] w =
    bind (process_senders env pre []) (process_senders env post) w
  /\ (forall k, k ∈ keys d -> k ∈ senders)
  /\ NoDup (keys d)
  /\ keys d `sublist_of` senders.
Proof.
  intros -> Hrun. split; [apply process_senders_app|].
  destruct (process_senders_keys pre [] [] d w Hrun) as [Hnd Hsub].
  { constructor. }
  { constructor. }
  cbn [app] in Hsub.
  assert (Hall : keys d `sublist_of` pre ++ post) by (by apply sublist_inserts_r).
  split; [|split; [exact Hnd | exact Hall]].
  intros k Hk. by eapply elem_of_sublist.
Qed.

(** A key of [summaries] is there from the start or was set after a query
    for that sender returned a message. *)
Lemma process_senders_key_origin (l : list str) (d d' : dict) (w : W) (k : str) :
  res (process_senders env l d w) = Ok d' ->
  k ∈ keys d' ->
  k ∈ keys d
  \/ exists lr,
       EvList ME (unread_query k) 1 (Ok lr) ∈ log (process_senders env l d w)
       /\ default [] (messages lr) <> [].
Proof.
  revert d w. induction l as [|s l IH]; intros d w.
  - cbn. intros [= <-] Hk. by left.
  - rewrite process_senders_cons, res_bind, log_bind.
    destruct (res (process_sender env d s w)) as [d1|e] eqn:Hstep;
      [|discriminate].
    intros Hrest Hk.
    destruct (IH _ _ Hrest Hk) as [Hk1 | (lr & Hin & Hne)].
    + pose proof (process_sender_query_logged d s w) as Hlogged.
      apply process_sender_result in Hstep
        as (lr & Hlr & [[_ ->] | [Hne [v ->]]]); [by left|].
      rewrite keys_dict_set in Hk1.
      destruct (decide (s ∈ keys d)); [by left|].
      apply elem_of_app in Hk1 as [?| ->%list_elem_of_singleton]; [by left|].
      right. exists lr. rewrite Hlr in Hlogged. split; [|done].
      apply elem_of_app. by left.
    + right. exists lr. split; [|done]. apply elem_of_app. by right.
Qed.

(** C7: a sender whose query returns no message is passed over: the step
    prints its two lines, makes the query and nothing else (no archive
    call), leaves [summaries] as it was and returns normally; and in a run
    of the loop, a sender all of whose queries returned no message has no
    entry in the resulting mapping. *)
Theorem C7_no_messages_no_entry :
  (forall (d : dict) (s : str) (w w1 : W) (lr : list_response),
      messages_list env ME (unread_query s) 1 w = (Ok lr, w1) ->
      default [] (messages lr) = [] ->
      process_sender env d s w =
        {| res := Ok d;
           final := w1;
           log := [ EvPrint (py "Checking emails from: " ++ s);
                    EvList ME (unread_query s) 1 (Ok lr);
                    EvPrint (py "Found " ++ str_of_nat 0 ++ py " unread messages") ] |}
      /\ archive_calls (log (process_sender env d s w)) = [])
  /\ (forall (senders : list str) (w : W) (d : dict) (s : str),
        res (process_senders env senders [] w) = Ok d ->
        (forall u n r,
            EvList u (unread_query s) n r ∈ log (process_senders env senders [] w) ->
            returned r = []) ->
        s ∉ keys d).
Proof.
  split.
  - intros d s w w1 lr Hlist Hnone.
    assert (Hstep : process_sender env d s w =
        {| res := Ok d;
           final := w1;
           log := [ EvPrint (py "Checking emails from: " ++ s);
                    EvList ME (unread_query s) 1 (Ok lr);
                    EvPrint (py "Found " ++ str_of_nat 0 ++ py " unread messages") ] |}).
    { rewrite process_sender_unfold. cbv zeta. rewrite Hlist. cbn [fst snd].
      rewrite Hnone. reflexivity. }
    split; [exact Hstep|]. rewrite Hstep. reflexivity.
  - intros senders w d s Hrun Hzero Hk.
    destruct (process_senders_key_origin _ _ _ _ _ Hrun Hk)
      as [Hin | (lr & Hin & Hne)].
    + by apply elem_of_nil in Hin.
    + apply Hzero in Hin. contradiction.
Qed.

(** *** The whole run *)

Lemma get_email_content_emits (msg_id : str) :
  emits step_tail_event (get_email_content env msg_id).
Proof.
  unfold get_email_content, users_messages_get.
  apply emits_bind; [by apply emits_call|]. intros m.
  apply emits_bind; [apply emits_lift|]. intros d. apply emits_lift.
Qed.

Lemma fetch_and_archive_emits (c : str) (m : message_ref) :
  emits step_tail_event (fetch_and_archive env c m).
Proof.
  unfold fetch_and_archive, archive_email, users_messages_modify.
  apply emits_bind; [apply get_email_content_emits|]. intros text.
  apply emits_bind; [by apply emits_call|]. intros _. apply emits_ret.
Qed.

Lemma summarize_with_gpt_emits (c : str) :
  emits step_tail_event (summarize_with_gpt env c).
Proof.
  unfold summarize_with_gpt, chat_completions_create.
  apply emits_bind; [by apply emits_call|]. intros r.
  destruct (choices r); [apply emits_raise | apply emits_ret].
Qed.

(** A step starts with its progress line and its query; what follows are
    progress lines, fetches, archive calls and summarisation calls. *)
Lemma process_sender_log (d : dict) (s : str) (w : W) :
  exists t,
    log (process_sender env d s w) =
      EvPrint (py "Checking emails from: " ++ s)
      :: EvList ME (unread_query s) 1 (messages_list env ME (unread_query s) 1 w).1
      :: t
    /\ Forall step_tail_event t.
Proof.
  rewrite process_sender_unfold. cbv zeta. rewrite !log_prepend.
  eexists. split; [reflexivity|].
  destruct (messages_list env ME (unread_query s) 1 w).1 as [lr|e];
    [|constructor].
  rewrite log_prepend. apply Forall_app. split; [by repeat constructor|].
  destruct (truthy (default [] (messages lr))); [|constructor].
  apply emits_bind.
  - apply emits_foldM. intros c m. apply fetch_and_archive_emits.
  - intros c. destruct (truthy c); [|apply emits_ret].
    apply emits_bind; [apply summarize_with_gpt_emits|].
    intros v. apply emits_ret.
Qed.

Lemma step_tail_no_query (t : list event) :
  Forall step_tail_event t -> list_queries t = [].
Proof.
  intros H. apply omap_none_Forall. eapply Forall_impl; [exact H|].
  by intros [].
Qed.

Lemma step_tail_no_send (t : list event) :
  Forall step_tail_event t -> sent_messages t = [].
Proof.
  intros H. apply omap_none_Forall. eapply Forall_impl; [exact H|].
  by intros [].
Qed.

(** One query per step, whatever its outcome. *)
Lemma process_sender_queries (d : dict) (s : str) (w : W) :
  list_queries (log (process_sender env d s w)) = [(unread_query s, 1)].
Proof.
  destruct (process_sender_log d s w) as (t & -> & Ht).
  change (list_queries (?a :: ?b :: t)) with ((unread_query s, 1) :: list_queries t).
  by rewrite step_tail_no_query.
Qed.

Lemma process_sender_no_send (d : dict) (s : str) (w : W) :
  sent_messages (log (process_sender env d s w)) = [].
Proof.
  destruct (process_sender_log d s w) as (t & -> & Ht).
  change (sent_messages (?a :: ?b :: t)) with (sent_messages t).
  by rewrite step_tail_no_send.
Qed.

Lemma process_senders_queries (l : list str) (d d' : dict) (w : W) :
  res (process_senders env l d w) = Ok d' ->
  list_queries (log (process_senders env l d w))
  = map (fun s => (unread_query s, 1)) l.
Proof.
  revert d w. induction l as [|s l IH]; intros d w; [reflexivity|].
  rewrite process_senders_cons, res_bind, log_bind.
  destruct (res (process_sender env d s w)) as [d1|e]; [|discriminate].
  intros Hrest. unfold list_queries. rewrite omap_app.
  fold (list_queries (log (process_sender env d s w))).
  rewrite process_sender_queries. cbn [map app]. f_equal. by apply IH.
Qed.

Lemma process_senders_no_send (l : list str) (d : dict) (w : W) :
  sent_messages (log (process_senders env l d w)) = [].
Proof.
  revert d w. induction l as [|s l IH]; intros d w; [reflexivity|].
  rewrite process_senders_cons, log_bind. unfold sent_messages.
  rewrite omap_app. fold (sent_messages (log (process_sender env d s w))).
  rewrite process_sender_no_send.
  destruct (res (process_sender env d s w)); [apply IH | reflexivity].
Qed.

Lemma collect_summaries_unfold (senders : list str) (w : W) :
  collect_summaries env senders w =
    prepend [ EvPrint (py "Starting newsletter processing...");
              EvPrint (py "Setting up Gmail service...");
              EvAuth (authorize env w).1 ]
      match (authorize env w).1 with
      | Ok _ =>
          prepend [EvPrint (py "Gmail service initialized")]
            (process_senders env senders [] (authorize env w).2)
      | Raise e => raise e (authorize env w).2
      end.
Proof.
  unfold collect_summaries, get_gmail_service.
  rewrite !bind_print, bind_call.
  destruct (authorize env w).1; [|reflexivity].
  rewrite bind_print. reflexivity.
Qed.

Lemma collect_summaries_queries (senders : list str) (w : W) (d : dict) :
  res (collect_summaries env senders w) = Ok d ->
  list_queries (log (collect_summaries env senders w))
  = map (fun s => (unread_query s, 1)) senders.
Proof.
  rewrite collect_summaries_unfold, res_prepend, log_prepend.
  destruct (authorize env w).1; [|discriminate].
  rewrite res_prepend, log_prepend. apply process_senders_queries.
Qed.

Lemma collect_summaries_no_send (senders : list str) (w : W) :
  sent_messages (log (collect_summaries env senders w)) = [].
Proof.
  rewrite collect_summaries_unfold, log_prepend.
  destruct (authorize env w).1; [|reflexivity].
  rewrite log_prepend. apply process_senders_no_send.
Qed.

Lemma send_summary_email_unfold (summaries : dict) (w : W) :
  send_summary_email env summaries w =
    let msg := digest_message (strftime_Ymd (now env w)) summaries in
    let rw := messages_send env ME (raw_of_mime env msg) w in
    {| res := rw.1; final := rw.2;
       log := [EvSend ME msg (raw_of_mime env msg) rw.1] |}.
Proof. reflexivity. Qed.

(** A run that completes has processed every sender. *)
Lemma main_with_completes (senders : list str) (w : W) :
  res (main_with env senders w) = Ok tt ->
  exists d, res (collect_summaries env senders w) = Ok d.
Proof.
  unfold main_with. rewrite res_bind.
  destruct (res (collect_summaries env senders w)) as [d|e]; [|discriminate].
  intros _. by exists d.
Qed.

(** C6: a run in which every sender is processed (so every run that
    completes) issues one unread-message query per configured sender, in
    the configured order, each asking for at most one result: N queries
    for a list of N senders. *)
Theorem C6_one_query_per_sender (senders : list str) (w : W) (d : dict) :
  res (collect_summaries env senders w) = Ok d ->
  list_queries (log (main_with env senders w))
  = map (fun s => (py "from:" ++ s ++ py " is:unread", 1)) senders
  /\ length (list_queries (log (main_with env senders w))) = length senders.
Proof.
  intros Hd.
  assert (Hq : list_queries (log (main_with env senders w))
               = map (fun s => (unread_query s, 1)) senders).
  { unfold main_with. rewrite log_bind, Hd.
    unfold list_queries. rewrite omap_app.
    fold (list_queries (log (collect_summaries env senders w))).
    rewrite (collect_summaries_queries senders w d Hd).
    destruct (truthy d); cbn; by rewrite app_nil_r. }
  split; [exact Hq|]. by rewrite Hq, length_map.
Qed.

(** C4: once all senders are processed, an empty [summaries] ends the run
    normally with no send call, and a non-empty one gives exactly one send
    call. *)
Theorem C4_digest_sent_iff_summaries
    (senders : list str) (w : W) (summaries : dict) :
  res (collect_summaries env senders w) = Ok summaries ->
  let o := main_with env senders w in
  (summaries = [] ->
     res o = Ok tt
     /\ sent_messages (log o) = []
     /\ log o = log (collect_summaries env senders w))
  /\ (summaries <> [] -> length (sent_messages (log o)) = 1).
Proof.
  intros Hd o. subst o. unfold main_with.
  rewrite res_bind, log_bind, Hd. split.
  - intros ->. cbn [truthy ret res log]. rewrite app_nil_r.
    split; [reflexivity|]. split; [|reflexivity].
    apply collect_summaries_no_send.
  - intros Hne. destruct summaries as [|e d]; [done|]. cbn [truthy].
    unfold sent_messages. rewrite omap_app.
    fold (sent_messages (log (collect_summaries env senders w))).
    rewrite collect_summaries_no_send. reflexivity.
Qed.

(** C5: the digest sent for a non-empty [summaries] is a plain text starting
    with the header line "Newsletter Summaries for YYYY-MM-DD" (the date of
    the run) and a blank line, followed by one block per entry, in
    insertion order: a blank line, the line "From {sender}:", and the
    summary; the subject carries the same date string. *)
Theorem C5_digest_format (senders : list str) (w : W) (summaries : dict) :
  res (collect_summaries env senders w) = Ok summaries ->
  summaries <> [] ->
  let today := now env (final (collect_summaries env senders w)) in
  valid_date today ->
  exists msg date_str,
    sent_messages (log (main_with env senders w)) = [msg]
    /\ parse_Ymd date_str = Some (year today, month today, day today)
    /\ mime_text msg =
         py "Newsletter Summaries for " ++ date_str ++ [LF] ++ [LF]
         ++ concat (map (fun entry : str * str =>
                           [LF] ++ py "From " ++ entry.1 ++ py ":" ++ [LF]
                           ++ entry.2 ++ [LF])
                        summaries)
    /\ mime_subject msg = py "Newsletter Summaries - " ++ date_str
    /\ mime_subtype msg = py "plain".
Proof.
  intros Hd Hne today Hvalid.
  exists (digest_message (strftime_Ymd today) summaries), (strftime_Ymd today).
  split; [|split; [by apply parse_strftime_Ymd | split; [|split]]].
  - unfold main_with. rewrite log_bind, Hd.
    destruct summaries as [|e d]; [done|]. cbn [truthy].
    unfold sent_messages. rewrite omap_app.
    fold (sent_messages (log (collect_summaries env senders w))).
    rewrite collect_summaries_no_send. reflexivity.
  - cbn [mime_text digest_message]. rewrite digest_body_blocks.
    unfold digest_header. rewrite <- !app_assoc. reflexivity.
  - reflexivity.
  - reflexivity.
Qed.

(** Whenever the query returned a message and the loop over the messages
    completed, the summarisation call is made, on a buffer that is not
    empty: the test of the buffer at line 191 cannot fail. *)
Lemma summarize_always_invoked
    (d : dict) (s : str) (w w1 : W) (lr : list_response) (c : str) :
  messages_list env ME (unread_query s) 1 w = (Ok lr, w1) ->
  default [] (messages lr) <> [] ->
  res (foldM (fetch_and_archive env) (default [] (messages lr)) [] w1) = Ok c ->
  c <> [] /\ chat_inputs (log (process_sender env d s w)) = [truncated_content c].
Proof.
  intros Hlist Hne Hc.
  pose proof (combined_content_truthy _ _ _ Hne Hc) as Htruthy.
  split; [by destruct c|].
  rewrite process_sender_unfold. cbv zeta. rewrite Hlist. cbn [fst snd].
  destruct (default [] (messages lr)) as [|m ms] eqn:Hmsgs; [done|].
  cbn [truthy]. rewrite !log_prepend, log_bind, Hc, Htruthy, log_bind.
  rewrite summarize_with_gpt_log.
  unfold chat_inputs. rewrite !omap_app.
  fold (chat_inputs (log (foldM (fetch_and_archive env) (m :: ms) [] w1))).
  assert (Hloop : chat_inputs (log (foldM (fetch_and_archive env) (m :: ms) [] w1)) = []).
  { destruct (fetch_loop_calls (m :: ms) [] w1)
      as (done & tail & rest & -> & _ & _ & [(-> & _) | [(-> & _) | Hget]]).
    - rewrite app_nil_r. clear. induction done as [|x done IH]; [reflexivity|].
      exact IH.
    - rewrite app_nil_r. clear. induction done as [|x done IH]; [reflexivity|].
      exact IH.
    - destruct Hget as (m' & rest' & gr & e & _ & _ & He). congruence. }
  rewrite Hloop.
  destruct (res (summarize_with_gpt env c _)); reflexivity.
Qed.

(** C2 (amended): for a sender whose query returns exactly one message
    with decoded body text T, the content handed to the summarisation step
    is T followed by the blank-line separator, the text submitted to the
    service is its truncation (which is the truncation of T itself once T
    is longer than 4000 characters), and the message is archived exactly
    once. *)
Theorem C2_single_message_content
    (d : dict) (s : str) (w w1 w3 : W) (lr : list_response)
    (m : message_ref) (T : str) :
  messages_list env ME (unread_query s) 1 w = (Ok lr, w1) ->
  messages lr = Some [m] ->
  res (get_email_content env (ref_id m) w1) = Ok T ->
  messages_modify env ME (ref_id m) ARCHIVE_LABELS
    (final (get_email_content env (ref_id m) w1)) = (Ok tt, w3) ->
  let o := process_sender env d s w in
  log o =
    [ EvPrint (py "Checking emails from: " ++ s);
      EvList ME (unread_query s) 1 (Ok lr);
      EvPrint (py "Found " ++ str_of_nat 1 ++ py " unread messages") ]
    ++ log (get_email_content env (ref_id m) w1)
    ++ [EvModify ME (ref_id m) ARCHIVE_LABELS (Ok tt)]
    ++ log (summarize_with_gpt env (T ++ [LF; LF]) w3)
  /\ res o =
       match res (summarize_with_gpt env (T ++ [LF; LF]) w3) with
       | Ok summary => Ok (dict_set d s summary)
       | Raise e => Raise e
       end
  /\ chat_inputs (log o) = [truncated_content (T ++ [LF; LF])]
  /\ archive_calls (log o) = [(ref_id m, ARCHIVE_LABELS)]
  /\ (4000 < length T ->
      truncated_content (T ++ [LF; LF]) = truncated_content T).
Proof.
  intros Hlist Hmsgs HT Har o.
  assert (Hlog : log o =
    [ EvPrint (py "Checking emails from: " ++ s);
      EvList ME (unread_query s) 1 (Ok lr);
      EvPrint (py "Found " ++ str_of_nat 1 ++ py " unread messages") ]
    ++ log (get_email_content env (ref_id m) w1)
    ++ [EvModify ME (ref_id m) ARCHIVE_LABELS (Ok tt)]
    ++ log (summarize_with_gpt env (T ++ [LF; LF]) w3)).
  { subst o. rewrite process_sender_unfold. cbv zeta. rewrite Hlist.
    cbn [fst snd]. rewrite Hmsgs. cbn [default from_option id length truthy].
    rewrite !log_prepend, log_bind, (fetch_one m [] T w1 w3 HT Har).
    cbn [res final log]. rewrite truthy_separator, log_bind.
    destruct (res (summarize_with_gpt env _ w3));
      cbn [log ret]; by rewrite <- ?app_assoc, ?app_nil_r. }
  split; [exact Hlog|]. split; [|split; [|split]].
  - subst o. rewrite process_sender_unfold. cbv zeta. rewrite Hlist.
    cbn [fst snd]. rewrite Hmsgs. cbn [default from_option id length truthy].
    rewrite !res_prepend, res_bind, (fetch_one m [] T w1 w3 HT Har).
    cbn [res final log]. rewrite truthy_separator, res_bind.
    destruct (res (summarize_with_gpt env _ w3)); reflexivity.
  - rewrite Hlog, get_email_content_log, summarize_with_gpt_log. reflexivity.
  - rewrite Hlog, get_email_content_log, summarize_with_gpt_log. reflexivity.
  - intros Hlen. rewrite !truncated_content_long
      by (rewrite ?length_app; cbn [length]; lia).
    f_equal. rewrite take_app_le by lia. reflexivity.
Qed.

End Properties.

(** C9 on three mails: a plain one (the top-level body is decoded), a
    multipart one (the first part is decoded, not the second), and one
    whose body has no data (the empty string). *)
Lemma C9_content_selection_witness :
  res (get_email_content demo_env (py "m1") hello_mailbox) = Ok (py "Hello world")
  /\ res (get_email_content demo_env (py "m3") multipart_mailbox) = Ok (py "Hi")
  /\ res (get_email_content demo_env (py "m2") empty_body_mailbox) = Ok [].
Proof.
  split; [|split].
  - refine (proj1 (C9_content_selection demo_env (py "m1") hello_mailbox hello_mailbox
              {| msg_payload := plain_payload (Some (py "SGVsbG8gd29ybGQ=")) |}
              {| data := Some (py "SGVsbG8gd29ybGQ=") |} eq_refl _)
              (py "SGVsbG8gd29ybGQ=") eq_refl _).
    + right. split; reflexivity.
    + discriminate.
  - refine (proj1 (C9_content_selection demo_env (py "m3")
              multipart_mailbox multipart_mailbox
              {| msg_payload :=
                   {| payload_body := {| data := None |};
                      parts := Some [ {| part_body := {| data := Some (py "SGk=") |} |};
                                      {| part_body :=
                                           {| data := Some (py "SGVsbG8gd29ybGQ=") |} |} ] |} |}
              {| data := Some (py "SGk=") |} eq_refl _)
              (py "SGk=") eq_refl _).
    + left. eexists _, _. split; reflexivity.
    + discriminate.
  - refine (proj1 (proj2 (C9_content_selection demo_env (py "m2")
              empty_body_mailbox empty_body_mailbox
              {| msg_payload := plain_payload None |}
              {| data := None |} eq_refl _)) eq_refl).
    right. split; reflexivity.
Defined.

(** ** The pipeline on concrete mailboxes *)

(** C1: on a mailbox where the sender's only unread mail has a body
    without data, the content fetched is the empty string, and yet the
    summarisation call is made, on the bare separator, and the sender gets
    an entry in [summaries]. *)
Theorem C1_empty_body_still_summarized :
  returned (messages_list demo_env ME (unread_query sender_A) 1 empty_body_mailbox).1
  = [{| ref_id := py "m2" |}]
  /\ res (get_email_content demo_env (py "m2") empty_body_mailbox) = Ok []
  /\ chat_inputs (log (process_sender demo_env [] sender_A empty_body_mailbox))
     = [[LF; LF]]
  /\ res (process_sender demo_env [] sender_A empty_body_mailbox)
     = Ok [(sender_A, py "- " ++ [LF; LF])].
Proof. repeat split. Qed.

(** C2 as stated fails on the mailbox holding "Hello world": the query
    returns exactly one message, its body decodes to "Hello world", and the
    text submitted is that text followed by two line feeds, not the
    (untruncated) text itself. *)
Lemma C2_counterexample :
  returned (messages_list demo_env ME (unread_query sender_A) 1 hello_mailbox).1
  = [{| ref_id := py "m1" |}]
  /\ res (get_email_content demo_env (py "m1") hello_mailbox) = Ok (py "Hello world")
  /\ truncated_content (py "Hello world") = py "Hello world"
  /\ chat_inputs (log (process_sender demo_env [] sender_A hello_mailbox))
     = [py "Hello world" ++ [LF; LF]]
  /\ chat_inputs (log (process_sender demo_env [] sender_A hello_mailbox))
     <> [truncated_content (py "Hello world")].
Proof. repeat split. vm_compute. discriminate. Qed.

(** C2 (amended) on the mailbox holding "Hello world". *)
Lemma C2_single_message_content_witness :
  chat_inputs (log (process_sender demo_env [] sender_A hello_mailbox))
  = [truncated_content (py "Hello world" ++ [LF; LF])]
  /\ archive_calls (log (process_sender demo_env [] sender_A hello_mailbox))
     = [(py "m1", ARCHIVE_LABELS)].
Proof.
  pose proof (C2_single_message_content demo_env [] sender_A
                hello_mailbox hello_mailbox
                (demo_modify ME (py "m1") ARCHIVE_LABELS hello_mailbox).2
                {| messages := Some [{| ref_id := py "m1" |}] |}
                {| ref_id := py "m1" |} (py "Hello world")
                eq_refl eq_refl eq_refl eq_refl) as H.
  split; [exact (proj1 (proj2 (proj2 H))) | exact (proj1 (proj2 (proj2 (proj2 H))))].
Defined.

(** C4 on the mailbox holding "Hello world" (one digest sent) and on an
    empty mailbox (none sent, the run ends normally). *)
Lemma C4_digest_sent_iff_summaries_witness :
  length (sent_messages (log (main_with demo_env [sender_A; sender_B] hello_mailbox))) = 1
  /\ res (main_with demo_env [sender_A; sender_B] []) = Ok tt
  /\ sent_messages (log (main_with demo_env [sender_A; sender_B] [])) = [].
Proof.
  split.
  - apply (proj2 (C4_digest_sent_iff_summaries demo_env [sender_A; sender_B]
                    hello_mailbox [(sender_A, py "- Hello world")] eq_refl)).
    discriminate.
  - pose proof (proj1 (C4_digest_sent_iff_summaries demo_env [sender_A; sender_B]
                         [] [] eq_refl) eq_refl) as H.
    split; [exact (proj1 H) | exact (proj1 (proj2 H))].
Defined.

(** C5 on the mailbox holding "Hello world", the clock at 2024-03-09. *)
Lemma C5_digest_format_witness :
  exists msg date_str,
    sent_messages (log (main_with demo_env [sender_A; sender_B] hello_mailbox)) = [msg]
    /\ parse_Ymd date_str = Some (2024, 3, 9)
    /\ mime_text msg =
         py "Newsletter Summaries for " ++ date_str ++ [LF] ++ [LF]
         ++ [LF] ++ py "From a@example.com:" ++ [LF] ++ py "- Hello world" ++ [LF]
    /\ mime_subject msg = py "Newsletter Summaries - " ++ date_str
    /\ mime_subtype msg = py "plain".
Proof.
  destruct (C5_digest_format demo_env [sender_A; sender_B] hello_mailbox
              [(sender_A, py "- Hello world")] eq_refl) as (msg & date_str & H).
  - discriminate.
  - unfold valid_date. cbn. lia.
  - exists msg, date_str. exact H.
Defined.

(** C6 on [main] itself: four configured senders, four queries. *)
Lemma C6_one_query_per_sender_witness :
  list_queries (log (main demo_env lenny_mailbox))
  = [ (py "from:review@firstround.com is:unread", 1);
      (py "from:dan@tldrnewsletter.com is:unread", 1);
      (py "from:lenny@substack.com is:unread", 1);
      (py "from:andrewchen@substack.com is:unread", 1) ].
Proof.
  exact (proj1 (C6_one_query_per_sender demo_env NEWSLETTER_SENDERS
                  lenny_mailbox [(py "lenny@substack.com", py "- Hello world")]
                  eq_refl)).
Defined.

(** C7 on the mailbox holding "Hello world": B has no unread mail. *)
Lemma C7_no_messages_no_entry_witness :
  res (process_sender demo_env [] sender_B hello_mailbox) = Ok []
  /\ archive_calls (log (process_sender demo_env [] sender_B hello_mailbox)) = [].
Proof.
  pose proof (proj1 (C7_no_messages_no_entry demo_env) [] sender_B
                hello_mailbox hello_mailbox {| messages := None |}
                eq_refl eq_refl) as [Hstep Harch].
  split; [by rewrite Hstep | exact Harch].
Defined.

(** C10 on the mailbox holding "Hello world", after the first of two
    senders. *)
Lemma C10_summaries_invariant_witness :
  NoDup (keys [(sender_A, py "- Hello world")])
  /\ keys [(sender_A, py "- Hello world")] `sublist_of` [sender_A; sender_B].
Proof.
  pose proof (C10_summaries_invariant demo_env [sender_A; sender_B]
                [sender_A] [sender_B] hello_mailbox
                [(sender_A, py "- Hello world")] eq_refl eq_refl) as H.
  split; [exact (proj1 (proj2 (proj2 H))) | exact (proj2 (proj2 (proj2 H)))].
Defined.

(** * Further properties of the code *)

Section Truncation.

(** X1: the text submitted never exceeds 4003 characters and keeps the first
    4000 characters of the content. *)
Theorem truncated_content_bounded (content : str) :
  length (truncated_content content) <= 4003
  /\ take 4000 (truncated_content content) = take 4000 content
  /\ length (truncated_content content) <= length content + 3.
Proof.
  destruct (Nat.le_gt_cases (length content) 4000) as [Hshort|Hlong].
  - rewrite truncated_content_short by lia. repeat split; lia.
  - rewrite truncated_content_long by lia.
    rewrite length_app, length_take. change (length (py "...")) with 3.
    split; [lia|]. split; [|lia].
    rewrite take_app_le by (rewrite length_take; lia).
    rewrite take_take. f_equal.
Qed.

(** X2: truncating twice is truncating once: a truncated text, marker
    included, is cut back to the same text. *)
Theorem truncated_content_idempotent (content : str) :
  truncated_content (truncated_content content) = truncated_content content.
Proof.
  destruct (Nat.le_gt_cases (length content) 4000) as [Hshort|Hlong].
  - rewrite (truncated_content_short content) by lia.
    by apply truncated_content_short.
  - rewrite (truncated_content_long content) by lia.
    rewrite truncated_content_long.
    + f_equal. rewrite take_app_le by (rewrite length_take; lia).
      rewrite take_take. f_equal.
    + rewrite length_app, length_take. change (length (py "...")) with 3. lia.
Qed.

End Truncation.

Section MoreProperties.
Context {W : Type} (env : environment W).

(** ** The buffer and the archive calls of the loop over the messages *)

Lemma fetched_text_of_content (msg_id : str) (w : W) (text : str) :
  res (get_email_content env msg_id w) = Ok text ->
  fetched_text env
    (EvGet ME msg_id (py "full") (messages_get env ME msg_id (py "full") w).1)
  = Some text.
Proof.
  rewrite get_email_content_unfold. cbn [res fetched_text].
  destruct (messages_get env ME msg_id (py "full") w).1 as [msg|e];
    [|discriminate].
  destruct (select_data (msg_payload msg)) as [d|e]; [|discriminate].
  by intros ->.
Qed.

(** X3: the buffer a completed loop leaves is the buffer it started from
    followed, for each message in turn, by the text fetched for it and a
    blank line; one text per message. *)
Theorem buffer_is_concatenation (msgs : list message_ref) (c c' : str) (w : W) :
  res (foldM (fetch_and_archive env) msgs c w) = Ok c' ->
  let texts := omap (fetched_text env) (log (foldM (fetch_and_archive env) msgs c w)) in
  length texts = length msgs
  /\ c' = c ++ concat (map (fun t => t ++ [LF; LF]) texts).
Proof.
  revert c w. induction msgs as [|m ms IH]; intros c w.
  - cbn. intros [= <-]. by rewrite app_nil_r.
  - rewrite fetch_and_archive_cons. cbv zeta.
    rewrite res_prepend, log_prepend.
    destruct (res (get_email_content env (ref_id m) w)) as [text|e] eqn:Htext;
      [|discriminate].
    rewrite res_prepend, log_prepend.
    destruct (messages_modify env ME (ref_id m) ARCHIVE_LABELS _).1;
      [|discriminate].
    intros Hrest. pose proof (IH _ _ Hrest) as H. cbv zeta in *.
    destruct H as [Hlen Hc'].
    rewrite !omap_app.
    change (omap (fetched_text env) [EvGet ?u ?i ?f ?r])
      with (option_list (fetched_text env (EvGet u i f r))).
    rewrite (fetched_text_of_content _ _ _ Htext).
    change (omap (fetched_text env) [EvModify ?u ?i ?l ?r]) with (@nil str).
    change (option_list (Some text)) with [text].
    cbn [app length concat map].
    split; [by rewrite Hlen|]. rewrite Hc'. by rewrite <- !app_assoc.
Qed.

(** A completed loop archived every message it was given, once, in
    order. *)
Lemma fetch_loop_archives (msgs : list message_ref) (c c' : str) (w : W) :
  res (foldM (fetch_and_archive env) msgs c w) = Ok c' ->
  archive_calls (log (foldM (fetch_and_archive env) msgs c w))
  = map (fun m => (ref_id m, ARCHIVE_LABELS)) msgs.
Proof.
  revert c w. induction msgs as [|m ms IH]; intros c w; [reflexivity|].
  rewrite fetch_and_archive_cons. cbv zeta. rewrite res_prepend, log_prepend.
  destruct (res (get_email_content env (ref_id m) w)) as [text|e];
    [|discriminate].
  rewrite res_prepend, log_prepend.
  destruct (messages_modify env ME (ref_id m) ARCHIVE_LABELS _).1;
    [|discriminate].
  intros Hrest. unfold archive_calls. rewrite !omap_app.
  fold (archive_calls (log (foldM (fetch_and_archive env) ms
                              (c ++ text ++ [LF; LF])
                              (messages_modify env ME (ref_id m) ARCHIVE_LABELS
                                 (final (get_email_content env (ref_id m) w))).2))).
  rewrite (IH _ _ Hrest). reflexivity.
Qed.

(** ** Archive calls against query answers *)

Lemma step_tail_no_due (t : list event) :
  Forall step_tail_event t -> flat_map archives_due t = [].
Proof.
  induction 1 as [|ev t Hev _ IH]; [reflexivity|].
  cbn [flat_map]. rewrite IH. by destruct ev.
Qed.

Lemma step_tail_no_answer (t : list event) :
  Forall step_tail_event t -> answered_queries t = [].
Proof.
  intros H. apply omap_none_Forall. eapply Forall_impl; [exact H|].
  by intros [].
Qed.

(** A completed step archived exactly the messages its query returned. *)
Lemma process_sender_archives (d d' : dict) (s : str) (w : W) :
  res (process_sender env d s w) = Ok d' ->
  archive_calls (log (process_sender env d s w))
  = map (fun m => (ref_id m, ARCHIVE_LABELS))
        (returned (messages_list env ME (unread_query s) 1 w).1).
Proof.
  rewrite process_sender_unfold. cbv zeta. rewrite !res_prepend, !log_prepend.
  destruct (messages_list env ME (unread_query s) 1 w).1 as [lr|e];
    [|discriminate].
  rewrite res_prepend, log_prepend. cbn [returned].
  unfold archive_calls. rewrite !omap_app.
  change (omap archive_call [EvPrint ?l]) with (@nil (str * list str)).
  change (omap archive_call [EvList ?u ?q ?n ?r]) with (@nil (str * list str)).
  cbn [app].
  destruct (default [] (messages lr)) as [|m ms]; [reflexivity|].
  cbn [truthy]. rewrite res_bind, log_bind.
  destruct (res (foldM (fetch_and_archive env) (m :: ms) [] _)) as [c|e] eqn:Hc;
    [|discriminate].
  intros Hrest. rewrite omap_app.
  fold (archive_calls (log (foldM (fetch_and_archive env) (m :: ms) []
                              (messages_list env ME (unread_query s) 1 w).2))).
  rewrite (fetch_loop_archives _ _ _ _ Hc).
  rewrite (combined_content_truthy env (m :: ms) c _) by done.
  rewrite log_bind, summarize_with_gpt_log.
  rewrite omap_app.
  change (omap archive_call [EvChat ?a ?b ?r]) with (@nil (str * list str)).
  destruct (res (summarize_with_gpt env c _)); cbn [log ret omap app];
    by rewrite !app_nil_r.
Qed.

Lemma process_sender_due (d : dict) (s : str) (w : W) :
  flat_map archives_due (log (process_sender env d s w))
  = map (fun m => (ref_id m, ARCHIVE_LABELS))
        (returned (messages_list env ME (unread_query s) 1 w).1).
Proof.
  destruct (process_sender_log env d s w) as (t & -> & Ht).
  cbn [flat_map archives_due app]. rewrite (step_tail_no_due t Ht).
  by rewrite app_nil_r.
Qed.

Lemma process_senders_archives (l : list str) (d d' : dict) (w : W) :
  res (process_senders env l d w) = Ok d' ->
  archive_calls (log (process_senders env l d w))
  = flat_map archives_due (log (process_senders env l d w)).
Proof.
  revert d w. induction l as [|s l IH]; intros d w; [reflexivity|].
  rewrite process_senders_cons, res_bind, log_bind.
  destruct (res (process_sender env d s w)) as [d1|e] eqn:Hstep; [|discriminate].
  intros Hrest. unfold archive_calls. rewrite omap_app, flat_map_app.
  fold (archive_calls (log (process_sender env d s w))).
  rewrite (process_sender_archives _ _ _ _ Hstep), process_sender_due.
  f_equal. by apply IH.
Qed.

(** X4: in a run in which every sender is processed, the archive calls are
    exactly the messages the queries returned: each message once, with the
    labels UNREAD and INBOX, in the order returned; also when a query
    returns more messages than it asked for. *)
Theorem every_returned_message_archived (senders : list str) (w : W) (d : dict) :
  res (collect_summaries env senders w) = Ok d ->
  archive_calls (log (main_with env senders w))
  = flat_map archives_due (log (main_with env senders w)).
Proof.
  intros Hd. unfold main_with. rewrite log_bind, Hd.
  unfold archive_calls. rewrite omap_app, flat_map_app.
  f_equal.
  - revert Hd.
    rewrite collect_summaries_unfold, res_prepend, log_prepend.
    destruct (authorize env w).1; [|discriminate].
    rewrite res_prepend, log_prepend. intros Hloop.
    rewrite !omap_app, !flat_map_app.
    fold (archive_calls (log (process_senders env senders [] (authorize env w).2))).
    rewrite (process_senders_archives _ _ _ _ Hloop). reflexivity.
  - destruct (truthy d); reflexivity.
Qed.

(** ** Queries in runs that end early *)

Lemma process_senders_queries_prefix (l : list str) (d : dict) (w : W) :
  list_queries (log (process_senders env l d w))
  `prefix_of` map (fun s => (unread_query s, 1)) l.
Proof.
  revert d w. induction l as [|s l IH]; intros d w; [apply prefix_nil|].
  rewrite process_senders_cons, log_bind. unfold list_queries.
  rewrite omap_app. fold (list_queries (log (process_sender env d s w))).
  rewrite process_sender_queries. cbn [map app]. apply prefix_cons.
  destruct (res (process_sender env d s w)); [apply IH | apply prefix_nil].
Qed.

(** X5: in every run, completed or not, the queries issued are those of an
    initial segment of the sender list, in order: no sender is queried
    twice for one place in the list, none is skipped, and none is queried
    after a failure. *)
Theorem queries_follow_sender_list (senders : list str) (w : W) :
  list_queries (log (main_with env senders w))
  `prefix_of` map (fun s => (py "from:" ++ s ++ py " is:unread", 1)) senders.
Proof.
  change (list_queries (log (main_with env senders w))
          `prefix_of` map (fun s => (unread_query s, 1)) senders).
  assert (Hc : list_queries (log (collect_summaries env senders w))
               `prefix_of` map (fun s => (unread_query s, 1)) senders).
  { rewrite collect_summaries_unfold, log_prepend.
    destruct (authorize env w).1; [|apply prefix_nil].
    rewrite log_prepend. apply process_senders_queries_prefix. }
  unfold main_with. rewrite log_bind. unfold list_queries. rewrite omap_app.
  fold (list_queries (log (collect_summaries env senders w))).
  destruct (res (collect_summaries env senders w)) as [d|e];
    [destruct (truthy d)|]; cbn [log ret omap]; by rewrite app_nil_r.
Qed.

(** ** The digest is the last effect *)

(** X6: a digest is sent only after every sender was processed and gave a
    non-empty mapping; it is the digest of that mapping at the date of the
    clock, the send is the last effect of the run, and its answer is the
    result of the run. *)
Theorem digest_is_last_effect (senders : list str) (w : W) (msg : MIMEText) :
  msg ∈ sent_messages (log (main_with env senders w)) ->
  exists d,
    res (collect_summaries env senders w) = Ok d
    /\ d <> []
    /\ msg = digest_message
               (strftime_Ymd (now env (final (collect_summaries env senders w)))) d
    /\ log (main_with env senders w)
       = log (collect_summaries env senders w)
         ++ [EvSend ME msg (raw_of_mime env msg) (res (main_with env senders w))].
Proof.
  unfold main_with. rewrite log_bind, res_bind. unfold sent_messages.
  rewrite omap_app. fold (sent_messages (log (collect_summaries env senders w))).
  rewrite collect_summaries_no_send. cbn [app].
  destruct (res (collect_summaries env senders w)) as [d|e].
  - destruct d as [|e d].
    + cbn. by intros ?%elem_of_nil.
    + cbn [truthy]. rewrite send_summary_email_unfold. cbv zeta.
      cbn [log res omap]. intros ->%list_elem_of_singleton.
      eexists. split; [reflexivity|]. split; [done|]. split; reflexivity.
  - cbn. by intros ?%elem_of_nil.
Qed.

(** ** Which senders get an entry, and with what *)

Lemma unread_query_inj (a b : str) : unread_query a = unread_query b -> a = b.
Proof.
  unfold unread_query. intros H%app_inv_head. by apply app_inv_tail in H.
Qed.

(** The only query logged by a step is its own. *)
Lemma process_sender_list_event (d : dict) (s : str) (w : W) u q n r :
  EvList u q n r ∈ log (process_sender env d s w) ->
  q = unread_query s /\ r = (messages_list env ME (unread_query s) 1 w).1.
Proof.
  destruct (process_sender_log env d s w) as (t & -> & Ht).
  intros [H | [H | H]%elem_of_cons]%elem_of_cons.
  - discriminate.
  - by injection H as -> -> -> ->.
  - rewrite Forall_forall in Ht. by apply Ht in H.
Qed.

Lemma process_sender_keys_mono (d d' : dict) (s k : str) (w : W) :
  res (process_sender env d s w) = Ok d' -> k ∈ keys d -> k ∈ keys d'.
Proof.
  intros (lr & _ & [[_ ->] | [_ [v ->]]])%process_sender_result Hk; [done|].
  rewrite keys_dict_set. destruct (decide (s ∈ keys d)); [done|].
  apply elem_of_app. by left.
Qed.

Lemma process_senders_keys_mono (l : list str) (d d' : dict) (k : str) (w : W) :
  res (process_senders env l d w) = Ok d' -> k ∈ keys d -> k ∈ keys d'.
Proof.
  revert d w. induction l as [|s l IH]; intros d w.
  - cbn. by intros [= <-].
  - rewrite process_senders_cons, res_bind.
    destruct (res (process_sender env d s w)) as [d1|e] eqn:Hstep; [|discriminate].
    intros Hrest Hk. apply (IH _ _ Hrest). by eapply process_sender_keys_mono.
Qed.

(** X7: in a completed loop, every sender one of whose queries returned a
    message has an entry in the resulting mapping. *)
Theorem answered_sender_has_entry
    (l : list str) (d d' : dict) (w : W) (k : str) u n r :
  res (process_senders env l d w) = Ok d' ->
  EvList u (unread_query k) n r ∈ log (process_senders env l d w) ->
  returned r <> [] ->
  k ∈ keys d'.
Proof.
  revert d w. induction l as [|s l IH]; intros d w.
  - cbn. by intros _ ?%elem_of_nil.
  - rewrite process_senders_cons, res_bind, log_bind.
    destruct (res (process_sender env d s w)) as [d1|e] eqn:Hstep; [|discriminate].
    intros Hrest [Hin|Hin]%elem_of_app Hne.
    + apply process_sender_list_event in Hin as [->%unread_query_inj ->].
      apply (process_senders_keys_mono _ _ _ _ _ Hrest).
      apply process_sender_result in Hstep as (lr & Hlr & [[Hnone _] | [_ [v ->]]]).
      * rewrite Hlr in Hne. contradiction.
      * rewrite keys_dict_set. destruct (decide (s ∈ keys d)); [done|].
        apply elem_of_app. right. by left.
    + by eapply IH.
Qed.

Lemma dict_get_set (d : dict) (k v : str) : dict_get (dict_set d k v) k = Some v.
Proof.
  induction d as [|[k' v'] d IH]; cbn [dict_set dict_get].
  - by rewrite decide_True.
  - destruct (decide (k = k')) as [->|Hne]; cbn [dict_get].
    + by rewrite decide_True.
    + by rewrite decide_False.
Qed.

(** Setting one key leaves the values at the other keys as they were. *)
Lemma dict_get_set_other (d : dict) (k k' v : str) :
  k' <> k -> dict_get (dict_set d k v) k' = dict_get d k'.
Proof.
  intros Hne. induction d as [|[k0 v0] d IH]; cbn [dict_set dict_get].
  - by rewrite decide_False.
  - destruct (decide (k = k0)) as [->|Hk]; cbn [dict_get].
    + by rewrite !decide_False.
    + destruct (decide (k' = k0)); [reflexivity | exact IH].
Qed.

Lemma summarize_with_gpt_result (c v : str) (w : W) :
  res (summarize_with_gpt env c w) = Ok v ->
  exists comp first rest,
    EvChat (py "gpt-4")
      [ {| role := py "system"; content := SYSTEM_PROMPT |};
        {| role := py "user"; content := truncated_content c |} ] (Ok comp)
    ∈ log (summarize_with_gpt env c w)
    /\ choices comp = first :: rest
    /\ v = choice_content first.
Proof.
  rewrite summarize_with_gpt_log. unfold summarize_with_gpt.
  rewrite res_bind. cbn [res call chat_completions_create].
  destruct (chat_create env _ _ w).1 as [comp|e]; [|discriminate].
  destruct (choices comp) as [|first rest] eqn:Hch; [discriminate|].
  cbn. intros [= <-]. exists comp, first, rest.
  split; [by left|]. by split.
Qed.

(** X8: the summary stored for a sender is the text of the first choice of the
    completion the service returned, unchanged; the other senders' entries
    keep their values. *)
Theorem stored_summary_is_first_choice (d d' : dict) (s : str) (w : W) :
  res (process_sender env d s w) = Ok d' ->
  returned (messages_list env ME (unread_query s) 1 w).1 <> [] ->
  exists msgs comp first rest,
    EvChat (py "gpt-4") msgs (Ok comp) ∈ log (process_sender env d s w)
    /\ choices comp = first :: rest
    /\ dict_get d' s = Some (choice_content first)
    /\ (forall k, k <> s -> dict_get d' k = dict_get d k).
Proof.
  rewrite process_sender_unfold. cbv zeta. rewrite !res_prepend, !log_prepend.
  destruct (messages_list env ME (unread_query s) 1 w).1 as [lr|e];
    [|discriminate].
  cbn [returned]. rewrite res_prepend, log_prepend.
  destruct (default [] (messages lr)) as [|m ms]; [done|].
  cbn [truthy]. rewrite res_bind, log_bind.
  destruct (res (foldM (fetch_and_archive env) (m :: ms) [] _)) as [c|e] eqn:Hc;
    [|discriminate].
  rewrite (combined_content_truthy env (m :: ms) c _) by done.
  rewrite res_bind, log_bind.
  destruct (res (summarize_with_gpt env c _)) as [v|e] eqn:Hv; [|discriminate].
  cbn [res ret]. intros [= <-] _.
  destruct (summarize_with_gpt_result _ _ _ Hv)
    as (comp & first & rest & Hin & Hch & ->).
  eexists _, comp, first, rest. split; [|split; [exact Hch | split]].
  - do 3 (apply elem_of_app; right). apply elem_of_app. right.
    apply elem_of_app. left. exact Hin.
  - apply dict_get_set.
  - intros k Hk. by apply dict_get_set_other.
Qed.

(** ** One summarisation per answered query *)

Lemma omap_cons_option {A B} (f : A -> option B) (x : A) (l : list A) :
  omap f (x :: l) = option_list (f x) ++ omap f l.
Proof. change (x :: l) with ([x] ++ l). rewrite omap_app. cbn. by destruct (f x). Qed.

Lemma process_sender_answered (d : dict) (s : str) (w : W) :
  answered_queries (log (process_sender env d s w))
  = if truthy (returned (messages_list env ME (unread_query s) 1 w).1)
    then [unread_query s] else [].
Proof.
  destruct (process_sender_log env d s w) as (t & -> & Ht).
  unfold answered_queries. rewrite !omap_cons_option.
  fold (answered_queries t).
  rewrite (step_tail_no_answer t Ht), app_nil_r. cbn [answered_query option_list app].
  by destruct (truthy (returned _)).
Qed.

Lemma process_sender_chats (d d' : dict) (s : str) (w : W) :
  res (process_sender env d s w) = Ok d' ->
  length (chat_inputs (log (process_sender env d s w)))
  = length (answered_queries (log (process_sender env d s w))).
Proof.
  intros Hstep. rewrite process_sender_answered.
  destruct (messages_list env ME (unread_query s) 1 w) as [r w1] eqn:Hlist.
  cbn [fst].
  rewrite process_sender_unfold in Hstep. cbv zeta in Hstep.
  rewrite Hlist in Hstep. cbn [fst snd] in Hstep.
  rewrite !res_prepend in Hstep.
  destruct r as [lr|e]; [|discriminate].
  rewrite res_prepend in Hstep. cbn [returned].
  destruct (default [] (messages lr)) as [|m ms] eqn:Hmsgs; cbn [truthy length].
  - rewrite process_sender_unfold. cbv zeta. rewrite Hlist. cbn [fst snd].
    rewrite Hmsgs. reflexivity.
  - cbn [truthy] in Hstep. rewrite res_bind in Hstep.
    destruct (res (foldM (fetch_and_archive env) (m :: ms) [] w1)) as [c|e] eqn:Hc;
      [|discriminate].
    assert (Hne : default [] (messages lr) <> []) by (by rewrite Hmsgs).
    rewrite <- Hmsgs in Hc.
    by rewrite (proj2 (summarize_always_invoked env d s w w1 lr c Hlist Hne Hc)).
Qed.

(** X9: in a completed loop the summarisation service is called once for each
    query that returned a message, and never for a query that returned
    none: at most once per sender in the list. *)
Theorem one_summary_per_answered_query (l : list str) (d d' : dict) (w : W) :
  res (process_senders env l d w) = Ok d' ->
  length (chat_inputs (log (process_senders env l d w)))
  = length (answered_queries (log (process_senders env l d w)))
  /\ length (chat_inputs (log (process_senders env l d w))) <= length l.
Proof.
  revert d w. induction l as [|s l IH]; intros d w.
  - intros _. split; [reflexivity | cbn; lia].
  - rewrite process_senders_cons, res_bind, log_bind.
    destruct (res (process_sender env d s w)) as [d1|e] eqn:Hstep; [|discriminate].
    intros Hrest. destruct (IH _ _ Hrest) as [Heq Hle].
    unfold chat_inputs, answered_queries in *. rewrite !omap_app, !length_app.
    pose proof (process_sender_chats _ _ _ _ Hstep) as Hone.
    pose proof (process_sender_answered d s w) as Hans.
    unfold chat_inputs, answered_queries in Hone, Hans.
    rewrite Hone, Heq. split; [reflexivity|].
    rewrite <- Heq, Hans. cbn [length].
    destruct (truthy (returned _)); cbn [length]; lia.
Qed.

(** ** Failures *)

(** X10: [get_email_content] raises in exactly three cases: the fetch raised;
    the payload has a [parts] list that is empty; the selected body has
    non-empty data that the decoder rejects.  A decoding error is raised,
    not turned into an empty text. *)
Theorem get_email_content_failures (msg_id : str) (w : W) (e : exn) :
  res (get_email_content env msg_id w) = Raise e <->
  (messages_get env ME msg_id (py "full") w).1 = Raise e
  \/ (exists msg,
        (messages_get env ME msg_id (py "full") w).1 = Ok msg
        /\ ((parts (msg_payload msg) = Some [] /\ e = IndexError)
            \/ (exists d, select_data (msg_payload msg) = Ok d
                          /\ d <> []
                          /\ b64decode_utf8 env d = Raise e))).
Proof.
  rewrite get_email_content_unfold. cbn [res].
  destruct (messages_get env ME msg_id (py "full") w).1 as [msg|e0].
  2: { split; [intros [= ->]; by left|].
       intros [[= ->] | (msg & [=] & _)]. reflexivity. }
  split.
  - intros H. right. exists msg. split; [reflexivity|].
    unfold select_data in *.
    destruct (parts (msg_payload msg)) as [[|first ps]|].
    + left. by injection H as <-.
    + right. eexists. split; [reflexivity|]. unfold decode_data in H.
      destruct (default [] (data (part_body first))); [discriminate|].
      by split.
    + right. eexists. split; [reflexivity|]. unfold decode_data in H.
      destruct (default [] (data (payload_body (msg_payload msg))));
        [discriminate|].
      by split.
  - intros [[=] | (msg' & [= <-] & [[Hparts ->] | (d & Hd & Hne & Hdec)])].
    + unfold select_data. by rewrite Hparts.
    + rewrite Hd. unfold decode_data. by destruct d.
Qed.

(** X11: when fetching a message raises, the loop ends there: the messages
    before it have been archived, the failing one and the ones after it are
    not, and nothing after the failing fetch is called. *)
Theorem fetch_failure_stops_loop
    (pre post : list message_ref) (m : message_ref) (c c1 : str) (w : W) (e : exn) :
  res (foldM (fetch_and_archive env) pre c w) = Ok c1 ->
  res (get_email_content env (ref_id m)
         (final (foldM (fetch_and_archive env) pre c w))) = Raise e ->
  let o := foldM (fetch_and_archive env) (pre ++ m :: post) c w in
  res o = Raise e
  /\ archive_calls (log o) = map (fun x => (ref_id x, ARCHIVE_LABELS)) pre
  /\ log o = log (foldM (fetch_and_archive env) pre c w)
             ++ [EvGet ME (ref_id m) (py "full")
                   (messages_get env ME (ref_id m) (py "full")
                      (final (foldM (fetch_and_archive env) pre c w))).1].
Proof.
  intros Hpre Hget o. subst o.
  assert (Hlog : log (foldM (fetch_and_archive env) (pre ++ m :: post) c w)
    = log (foldM (fetch_and_archive env) pre c w)
      ++ [EvGet ME (ref_id m) (py "full")
            (messages_get env ME (ref_id m) (py "full")
               (final (foldM (fetch_and_archive env) pre c w))).1]).
  { rewrite foldM_app, log_bind, Hpre, fetch_and_archive_cons. cbv zeta.
    rewrite Hget. reflexivity. }
  split; [|split; [|exact Hlog]].
  - rewrite foldM_app, res_bind, Hpre, fetch_and_archive_cons. cbv zeta.
    by rewrite Hget.
  - rewrite Hlog. unfold archive_calls. rewrite omap_app.
    fold (archive_calls (log (foldM (fetch_and_archive env) pre c w))).
    rewrite (fetch_loop_archives _ _ _ _ Hpre). cbn. by rewrite app_nil_r.
Qed.

(** X12: when the summarisation fails (the service raises, or answers without
    a choice), the step raises the same exception after every message of
    the sender has been archived: the messages are no longer unread, and
    no summary of them is stored. *)
Theorem summary_failure_after_archive
    (d : dict) (s : str) (w w1 : W) (lr : list_response) (c : str) (e : exn) :
  messages_list env ME (unread_query s) 1 w = (Ok lr, w1) ->
  default [] (messages lr) <> [] ->
  res (foldM (fetch_and_archive env) (default [] (messages lr)) [] w1) = Ok c ->
  res (summarize_with_gpt env c
         (final (foldM (fetch_and_archive env) (default [] (messages lr)) [] w1)))
  = Raise e ->
  res (process_sender env d s w) = Raise e
  /\ archive_calls (log (process_sender env d s w))
     = map (fun m => (ref_id m, ARCHIVE_LABELS)) (default [] (messages lr)).
Proof.
  intros Hlist Hne Hc He.
  pose proof (combined_content_truthy env _ _ _ Hne Hc) as Htruthy.
  rewrite process_sender_unfold. cbv zeta. rewrite Hlist. cbn [fst snd].
  rewrite !res_prepend, !log_prepend.
  destruct (default [] (messages lr)) as [|m ms] eqn:Hmsgs; [done|].
  cbn [truthy]. rewrite res_bind, log_bind, Hc, Htruthy, res_bind, log_bind, He.
  split; [reflexivity|].
  unfold archive_calls. rewrite !omap_app.
  fold (archive_calls (log (foldM (fetch_and_archive env) (m :: ms) [] w1))).
  rewrite (fetch_loop_archives _ _ _ _ Hc), summarize_with_gpt_log.
  cbn. by rewrite !app_nil_r.
Qed.

(** ** The first failure ends the run *)

Lemma fail_fast_ret {A} (a : A) : fail_fast (@ret W A a).
Proof. intros w. left. constructor. Qed.

Lemma fail_fast_raise {A} e : fail_fast (@raise W A e).
Proof. intros w. left. constructor. Qed.

Lemma fail_fast_lift {A} (r : Exc A) : fail_fast (@lift W A r).
Proof. destruct r; [apply fail_fast_ret | apply fail_fast_raise]. Qed.

Lemma fail_fast_print line : fail_fast (@print W line).
Proof. intros w. left. by repeat constructor. Qed.

Lemma fail_fast_call {R} (f : W -> Exc R * W) (ev : Exc R -> event) :
  (forall a, raised (ev (Ok a)) = None) ->
  (forall e, raised (ev (Raise e)) = Some e) ->
  fail_fast (call f ev).
Proof.
  intros Hok Hraise w. cbn [call log res].
  destruct (f w).1 as [a|e].
  - left. by repeat constructor.
  - right. exists [], (ev (Raise e)), e. repeat split; [constructor | done].
Qed.

Lemma fail_fast_bind {A B} (m : M W A) (k : A -> M W B) :
  fail_fast m -> (forall a, fail_fast (k a)) -> fail_fast (bind m k).
Proof.
  intros Hm Hk w. rewrite log_bind, res_bind.
  destruct (Hm w) as [Hnone | (pre & ev & e & Hlog & Hpre & Hev & Hres)].
  - destruct (res (m w)) as [a|e0].
    + destruct (Hk a (final (m w)))
        as [Hnone' | (pre & ev & e & Hlog & Hpre & Hev & Hres)].
      * left. by apply Forall_app.
      * right. exists (log (m w) ++ pre), ev, e.
        rewrite Hlog, app_assoc. repeat split; [by apply Forall_app | done..].
    + left. rewrite app_nil_r. exact Hnone.
  - right. rewrite Hres, app_nil_r. by exists pre, ev, e.
Qed.

Lemma fail_fast_foldM {A S} (f : S -> A -> M W S) (l : list A) (s : S) :
  (forall s x, fail_fast (f s x)) -> fail_fast (foldM f l s).
Proof.
  intros Hf. revert s. induction l as [|x l IH]; intros s; cbn [foldM].
  - apply fail_fast_ret.
  - apply fail_fast_bind; [apply Hf | apply IH].
Qed.

Lemma main_with_fail_fast (senders : list str) : fail_fast (main_with env senders).
Proof.
  unfold main_with. apply fail_fast_bind.
  - unfold collect_summaries, get_gmail_service, process_senders.
    repeat (apply fail_fast_bind; [|intros ?]);
      try apply fail_fast_print; try (by apply fail_fast_call).
    apply fail_fast_foldM. intros d s. unfold process_sender.
    apply fail_fast_bind; [apply fail_fast_print|]. intros _.
    apply fail_fast_bind.
    { unfold get_newsletter_emails, users_messages_list.
      apply fail_fast_bind; [by apply fail_fast_call|].
      intros r. apply fail_fast_ret. }
    intros msgs. apply fail_fast_bind; [apply fail_fast_print|]. intros _.
    destruct (truthy msgs); [|apply fail_fast_ret].
    apply fail_fast_bind.
    { apply fail_fast_foldM. intros c m.
      unfold fetch_and_archive, get_email_content, archive_email,
        users_messages_get, users_messages_modify.
      repeat (apply fail_fast_bind; [|intros ?]);
        try apply fail_fast_lift; try apply fail_fast_ret;
        by apply fail_fast_call. }
    intros c. destruct (truthy c); [|apply fail_fast_ret].
    apply fail_fast_bind; [|intros v; apply fail_fast_ret].
    unfold summarize_with_gpt, chat_completions_create.
    apply fail_fast_bind; [by apply fail_fast_call|].
    intros r. destruct (choices r); [apply fail_fast_raise | apply fail_fast_ret].
  - intros d. destruct (truthy d); [|apply fail_fast_ret].
    unfold send_summary_email, datetime_now, users_messages_send.
    apply fail_fast_bind.
    + intros w. left. constructor.
    + intros t. by apply fail_fast_call.
Qed.

(** X13: in every run, a call that raises is the last effect of the run, and
    the run ends with that exception: no service is called after a
    failure, whichever call it was. *)
Theorem first_failure_ends_run
    (senders : list str) (w : W) (pre post : list event) (ev : event) (e : exn) :
  log (main_with env senders w) = pre ++ ev :: post ->
  raised ev = Some e ->
  post = [] /\ res (main_with env senders w) = Raise e.
Proof.
  intros Hlog Hev.
  destruct (main_with_fail_fast senders w)
    as [Hnone | (pre' & ev' & e' & Hlog' & Hpre' & Hev' & Hres)].
  - rewrite Hlog in Hnone. apply Forall_app in Hnone as [_ Hnone].
    apply Forall_cons in Hnone as [Hnone _]. congruence.
  - rewrite Hlog in Hlog'.
    destruct post as [|x post _] using rev_ind.
    + apply app_inj_tail in Hlog' as [_ <-].
      split; [reflexivity|]. congruence.
    + rewrite app_comm_cons, app_assoc in Hlog'.
      apply app_inj_tail in Hlog' as [<- _].
      apply Forall_app in Hpre' as [_ Hpre'].
      apply Forall_cons in Hpre' as [Hpre' _]. congruence.
Qed.

End MoreProperties.

(** * Properties of the authentication *)

Section AuthProperties.
Import Auth.
Context {W C S : Type} (env : auth_environment W C S).

(** Runs [get_gmail_service] by cases on the answers of the environment. *)
Ltac auth_unfold :=
  unfold get_gmail_service, load_cached, obtain, renew, path_exists,
    acall, observe, abind, aret;
  cbn [value world trace fst snd app].

Ltac auth_step :=
  match goal with
  | |- context [os_path_exists ?e ?p ?w] =>
      destruct (os_path_exists e p w) eqn:?
  | |- context [pickle_load ?e ?p ?w] =>
      destruct (pickle_load e p w) as [[[?|]|?] ?] eqn:?
  | |- context [creds_valid ?e ?c ?w] =>
      destruct (creds_valid e c w) eqn:?
  | |- context [andb (creds_expired ?e ?c ?w) (has_refresh_token ?e ?c)] =>
      destruct (creds_expired e c w) eqn:?;
      destruct (has_refresh_token e c) eqn:?
  | |- context [creds_refresh ?e ?c ?w] =>
      destruct (creds_refresh e c w) as [[?|?] ?] eqn:?
  | |- context [run_local_server ?e ?a ?b ?n ?w] =>
      destruct (run_local_server e a b n w) as [[?|?] ?] eqn:?
  | |- context [pickle_dump ?e ?p ?c ?w] =>
      destruct (pickle_dump e p c w) as [[[]|?] ?] eqn:?
  | |- context [build ?e ?a ?b ?c ?w] =>
      destruct (build e a b c w) as [[?|?] ?] eqn:?
  end;
  cbn [value world trace fst snd app andb].

Ltac auth_cases := auth_unfold; repeat auth_step.

(** X14: with valid credentials in the cache, the service is built from them
    and nothing else happens: no refresh, no interactive flow, and the
    cache file is not rewritten. *)
Theorem valid_cache_is_silent (w w1 : W) (c : C) :
  os_path_exists env TOKEN w = true ->
  pickle_load env TOKEN w = (Ok (Some c), w1) ->
  creds_valid env c w1 = true ->
  let o := get_gmail_service env w in
  trace o = [ AuExists TOKEN true; AuLoad TOKEN (Ok (Some c));
              AuBuild (py "gmail") (py "v1") c (value o) ]
  /\ value o = (build env (py "gmail") (py "v1") c w1).1
  /\ omap dumped (trace o) = []
  /\ List.filter is_renewal (trace o) = [].
Proof.
  intros Hex Hload Hvalid o. subst o. auth_unfold.
  rewrite Hex. cbn [value world trace fst snd app]. rewrite Hload.
  cbn [value world trace fst snd app]. rewrite Hvalid.
  cbn [value world trace fst snd app]. repeat split.
Qed.

Lemma get_gmail_service_fail_fast (w : W) :
  let o := get_gmail_service env w in
  Forall (fun ev => auth_raised ev = None) (trace o)
  \/ (exists pre ev e,
        trace o = pre ++ [ev]
        /\ Forall (fun x => auth_raised x = None) pre
        /\ auth_raised ev = Some e
        /\ value o = Raise e).
Proof.
  cbv zeta. auth_cases;
    first
      [ left; by repeat constructor
      | right; eexists [], _, _; repeat split; by repeat constructor
      | right; eexists [_], _, _; repeat split; by repeat constructor
      | right; eexists [_; _], _, _; repeat split; by repeat constructor
      | right; eexists [_; _; _], _, _; repeat split; by repeat constructor
      | right; eexists [_; _; _; _], _, _; repeat split; by repeat constructor ].
Qed.

(** X15: a call that raises is the last thing [get_gmail_service] does, and
    its exception is the result.  So a cache file that cannot be loaded is
    not replaced by a new authorization, a failed refresh does not fall
    back to the interactive flow, and after a failed refresh or flow the
    cache file is not written. *)
Theorem auth_failure_ends_call
    (w : W) (pre post : list (auth_event C S)) (ev : auth_event C S) (e : exn) :
  trace (get_gmail_service env w) = pre ++ ev :: post ->
  auth_raised ev = Some e ->
  post = [] /\ value (get_gmail_service env w) = Raise e.
Proof.
  intros Hlog Hev.
  destruct (get_gmail_service_fail_fast w)
    as [Hnone | (pre' & ev' & e' & Hlog' & Hpre' & Hev' & Hres)].
  - rewrite Hlog in Hnone. apply Forall_app in Hnone as [_ Hnone].
    apply Forall_cons in Hnone as [Hnone _]. congruence.
  - rewrite Hlog in Hlog'.
    destruct post as [|x post _] using rev_ind.
    + apply app_inj_tail in Hlog' as [_ <-].
      split; [reflexivity|]. congruence.
    + rewrite app_comm_cons, app_assoc in Hlog'.
      apply app_inj_tail in Hlog' as [<- _].
      apply Forall_app in Hpre' as [_ Hpre'].
      apply Forall_cons in Hpre' as [Hpre' _]. congruence.
Qed.

Ltac in_trace H :=
  repeat (apply elem_of_cons in H as [H|H]);
  try (by apply elem_of_nil in H); try discriminate H.

(** X16: the service is only ever built from the credentials the cache file
    holds at that moment: the ones just loaded from it, or the ones just
    written to it.  The build is the last call, and its answer is the
    result. *)
Theorem service_built_from_cache (w : W) n v (c : C) r :
  AuBuild n v c r ∈ trace (get_gmail_service env w) ->
  n = py "gmail" /\ v = py "v1"
  /\ value (get_gmail_service env w) = r
  /\ exists pre,
       trace (get_gmail_service env w) = pre ++ [AuBuild n v c r]
       /\ (last pre = Some (AuLoad TOKEN (Ok (Some c)))
           \/ last pre = Some (AuDump TOKEN c (Ok tt))).
Proof.
  auth_cases; intros H; in_trace H; injection H as <- <- <- <-;
    (split; [reflexivity|]); (split; [reflexivity|]); (split; [reflexivity|]);
    first
      [ eexists [_; _]; split; [reflexivity|]; (by left) || (by right)
      | eexists [_; _; _]; split; [reflexivity|]; (by left) || (by right)
      | eexists [_; _; _; _]; split; [reflexivity|]; (by left) || (by right) ].
Qed.

(** X17: which renewal is made: the credentials are refreshed only when they
    were loaded from the cache, are not valid, are expired and hold a
    refresh token; the interactive flow runs only when there is no usable
    cache and no refresh is possible; and a call makes at most one
    renewal. *)
Theorem renewal_decision (w : W) :
  (forall c r,
      AuRefresh c r ∈ trace (get_gmail_service env w) ->
      exists w1,
        os_path_exists env TOKEN w = true
        /\ pickle_load env TOKEN w = (Ok (Some c), w1)
        /\ creds_valid env c w1 = false
        /\ creds_expired env c w1 = true
        /\ has_refresh_token env c = true)
  /\ (forall a b p r,
        AuFlow a b p r ∈ trace (get_gmail_service env w) ->
        a = SECRETS /\ b = SCOPES /\ p = 0
        /\ (os_path_exists env TOKEN w = false
            \/ exists w1,
                 pickle_load env TOKEN w = (Ok None, w1)
                 \/ exists c,
                      pickle_load env TOKEN w = (Ok (Some c), w1)
                      /\ creds_valid env c w1 = false
                      /\ (creds_expired env c w1 && has_refresh_token env c) = false))
  /\ length (List.filter is_renewal (trace (get_gmail_service env w))) <= 1.
Proof.
  split; [|split].
  - intros c r. auth_cases; intros H; in_trace H.
    all: simplify_eq; eexists; repeat split; eassumption.
  - intros a b p r. auth_cases; intros H; in_trace H.
    all: simplify_eq; repeat split.
    all: try (by left).
    all: right; eexists;
      first
        [ by left
        | right; eexists; split; [reflexivity|]; split; [eassumption|];
          match goal with H : creds_expired _ _ _ = _ |- _ => rewrite H end;
          try match goal with H : has_refresh_token _ _ = _ |- _ => rewrite H end;
          reflexivity ].
  - auth_cases; cbn; lia.
Qed.

(** X18: on a file system where a dumped file loads back as what was dumped,
    and where loading and building leave the file alone: after a call that
    returns, the cache file holds the credentials the service was built
    from; and as long as these are valid, the next call builds from them
    without refresh, flow or write. *)
Theorem next_call_reuses_credentials (w : W) (s : S) :
  (forall c w0 w', pickle_dump env TOKEN c w0 = (Ok tt, w') -> cache_holds env w' c) ->
  (forall n v c0 c w0 r w',
      build env n v c0 w0 = (r, w') -> cache_holds env w0 c -> cache_holds env w' c) ->
  (forall c w0 r w',
      pickle_load env TOKEN w0 = (r, w') -> cache_holds env w0 c -> cache_holds env w' c) ->
  value (get_gmail_service env w) = Ok s ->
  let w' := world (get_gmail_service env w) in
  exists c,
    AuBuild (py "gmail") (py "v1") c (Ok s) ∈ trace (get_gmail_service env w)
    /\ cache_holds env w' c
    /\ (creds_valid env c (pickle_load env TOKEN w').2 = true ->
        trace (get_gmail_service env w')
        = [ AuExists TOKEN true; AuLoad TOKEN (Ok (Some c));
            AuBuild (py "gmail") (py "v1") c (value (get_gmail_service env w')) ]).
Proof.
  intros Hdump Hbuild Hload Hval w'.
  assert (Hc : exists c,
             AuBuild (py "gmail") (py "v1") c (Ok s) ∈ trace (get_gmail_service env w)
             /\ cache_holds env w' c).
  { subst w'. revert Hval. auth_cases; intros [= <-].
    all: eexists; (split; [repeat ((by left) || right)|]).
    all: eapply Hbuild; [eassumption|].
    all: try (eapply Hdump; eassumption).
    all: eapply Hload; [eassumption|]; split; [assumption | eauto]. }
  destruct Hc as (c & Hin & Hholds). exists c.
  split; [exact Hin|]. split; [exact Hholds|].
  destruct Hholds as (Hex & w1 & Hw1). rewrite Hw1. cbn [snd]. intros Hvalid.
  auth_unfold. rewrite Hex. cbn [value world trace fst snd app].
  rewrite Hw1. cbn [value world trace fst snd app]. rewrite Hvalid. reflexivity.
Qed.

End AuthProperties.

(** ** The further properties on concrete inputs *)

Lemma buffer_is_concatenation_witness :
  let o := foldM (fetch_and_archive demo_env)
             [{| ref_id := py "m1" |}; {| ref_id := py "m3" |}] [] two_mail_mailbox in
  length (omap (fetched_text demo_env) (log o)) = 2
  /\ py "Hello world" ++ [LF; LF] ++ py "Hi" ++ [LF; LF]
     = [] ++ concat (map (fun t => t ++ [LF; LF]) (omap (fetched_text demo_env) (log o))).
Proof.
  exact (buffer_is_concatenation demo_env
           [{| ref_id := py "m1" |}; {| ref_id := py "m3" |}] []
           (py "Hello world" ++ [LF; LF] ++ py "Hi" ++ [LF; LF])
           two_mail_mailbox eq_refl).
Defined.

Lemma every_returned_message_archived_witness :
  archive_calls (log (main_with demo_env [sender_A; sender_B] hello_mailbox))
  = flat_map archives_due (log (main_with demo_env [sender_A; sender_B] hello_mailbox)).
Proof.
  exact (every_returned_message_archived demo_env [sender_A; sender_B] hello_mailbox
           [(sender_A, py "- Hello world")] eq_refl).
Defined.

Lemma digest_is_last_effect_witness :
  exists d,
    res (collect_summaries demo_env [sender_A; sender_B] hello_mailbox) = Ok d
    /\ d <> [].
Proof.
  destruct (digest_is_last_effect demo_env [sender_A; sender_B] hello_mailbox
              (digest_message (py "2024-03-09") [(sender_A, py "- Hello world")]))
    as (d & Hd & Hne & _).
  - vm_compute. repeat constructor.
  - by exists d.
Defined.

Lemma answered_sender_has_entry_witness :
  sender_A ∈ keys [(sender_A, py "- Hello world")].
Proof.
  refine (answered_sender_has_entry demo_env [sender_A; sender_B] []
            [(sender_A, py "- Hello world")] hello_mailbox sender_A
            ME 1 (Ok {| messages := Some [{| ref_id := py "m1" |}] |})
            eq_refl _ _).
  - vm_compute. repeat constructor.
  - discriminate.
Defined.

Lemma stored_summary_is_first_choice_witness :
  exists msgs comp first rest,
    EvChat (py "gpt-4") msgs (Ok comp)
    ∈ log (process_sender demo_env [] sender_A hello_mailbox)
    /\ choices comp = first :: rest
    /\ dict_get [(sender_A, py "- Hello world")] sender_A = Some (choice_content first)
    /\ (forall k, k <> sender_A ->
        dict_get [(sender_A, py "- Hello world")] k = dict_get [] k).
Proof.
  refine (stored_summary_is_first_choice demo_env []
            [(sender_A, py "- Hello world")] sender_A hello_mailbox eq_refl _).
  discriminate.
Defined.

Lemma one_summary_per_answered_query_witness :
  length (chat_inputs (log (process_senders demo_env [sender_A; sender_B] [] hello_mailbox)))
  = length (answered_queries
              (log (process_senders demo_env [sender_A; sender_B] [] hello_mailbox)))
  /\ length (chat_inputs
               (log (process_senders demo_env [sender_A; sender_B] [] hello_mailbox)))
     <= 2.
Proof.
  exact (one_summary_per_answered_query demo_env [sender_A; sender_B] []
           [(sender_A, py "- Hello world")] hello_mailbox eq_refl).
Defined.

(** The second of two mails does not decode: the first is archived, the
    second is not. *)
Lemma fetch_failure_stops_loop_witness :
  let o := foldM (fetch_and_archive demo_env)
             ([{| ref_id := py "m1" |}] ++ {| ref_id := py "m4" |} :: [])
             [] (hello_mailbox ++ garbled_mailbox) in
  res o = Raise ValueError
  /\ archive_calls (log o) = [(py "m1", ARCHIVE_LABELS)].
Proof.
  pose proof (fetch_failure_stops_loop demo_env
                [{| ref_id := py "m1" |}] [] {| ref_id := py "m4" |} []
                (py "Hello world" ++ [LF; LF]) (hello_mailbox ++ garbled_mailbox)
                ValueError eq_refl eq_refl) as H.
  split; [exact (proj1 H) | exact (proj1 (proj2 H))].
Defined.

Lemma summary_failure_after_archive_witness :
  res (process_sender demo_env_chat_down [] sender_A hello_mailbox)
  = Raise (ServiceError (py "503"))
  /\ archive_calls (log (process_sender demo_env_chat_down [] sender_A hello_mailbox))
     = [(py "m1", ARCHIVE_LABELS)].
Proof.
  refine (summary_failure_after_archive demo_env_chat_down [] sender_A
            hello_mailbox hello_mailbox
            {| messages := Some [{| ref_id := py "m1" |}] |}
            (py "Hello world" ++ [LF; LF]) (ServiceError (py "503"))
            eq_refl _ eq_refl eq_refl).
  discriminate.
Defined.

Lemma first_failure_ends_run_witness :
  res (main_with demo_env_chat_down [sender_A; sender_B] hello_mailbox)
  = Raise (ServiceError (py "503")).
Proof.
  exact (proj2 (first_failure_ends_run demo_env_chat_down [sender_A; sender_B]
                  hello_mailbox
                  (removelast (log (main_with demo_env_chat_down
                                      [sender_A; sender_B] hello_mailbox)))
                  [] 
                  (default (EvPrint [])
                     (last (log (main_with demo_env_chat_down
                                   [sender_A; sender_B] hello_mailbox))))
                  (ServiceError (py "503")) eq_refl eq_refl)).
Defined.

Lemma valid_cache_is_silent_witness :
  Auth.trace (Auth.get_gmail_service Auth.demo_auth Auth.cached_world)
  = [ Auth.AuExists Auth.TOKEN true;
      Auth.AuLoad Auth.TOKEN (Ok (Some {| Auth.token_no := 1; Auth.refreshable := true |}));
      Auth.AuBuild (py "gmail") (py "v1")
        {| Auth.token_no := 1; Auth.refreshable := true |} (Ok 1) ].
Proof.
  exact (proj1 (valid_cache_is_silent Auth.demo_auth Auth.cached_world Auth.cached_world
                  {| Auth.token_no := 1; Auth.refreshable := true |}
                  eq_refl eq_refl eq_refl)).
Defined.

(** Without a cache file and without network, the flow raises and nothing
    follows. *)
Lemma auth_failure_ends_call_witness :
  Auth.value (Auth.get_gmail_service Auth.demo_auth_offline Auth.first_run_world)
  = Raise (ServiceError (py "offline")).
Proof.
  exact (proj2 (auth_failure_ends_call Auth.demo_auth_offline Auth.first_run_world
                  [Auth.AuExists Auth.TOKEN false] []
                  (Auth.AuFlow Auth.SECRETS Auth.SCOPES 0
                     (Raise (ServiceError (py "offline"))))
                  (ServiceError (py "offline")) eq_refl eq_refl)).
Defined.

(** With an expired token in the cache, the credentials are refreshed,
    written back, and the service is built from what was written. *)
Lemma service_built_from_cache_witness :
  exists pre,
    Auth.trace (Auth.get_gmail_service Auth.demo_auth Auth.expired_world)
    = pre ++ [Auth.AuBuild (py "gmail") (py "v1")
                {| Auth.token_no := 2; Auth.refreshable := true |} (Ok 2)]
    /\ (last pre = Some (Auth.AuLoad Auth.TOKEN
                          (Ok (Some {| Auth.token_no := 2; Auth.refreshable := true |})))
        \/ last pre = Some (Auth.AuDump Auth.TOKEN
                             {| Auth.token_no := 2; Auth.refreshable := true |} (Ok tt))).
Proof.
  refine (proj2 (proj2 (proj2
    (service_built_from_cache Auth.demo_auth Auth.expired_world
       (py "gmail") (py "v1") {| Auth.token_no := 2; Auth.refreshable := true |}
       (Ok 2) _)))).
  vm_compute. repeat constructor.
Defined.

Lemma renewal_decision_witness :
  length (List.filter Auth.is_renewal
            (Auth.trace (Auth.get_gmail_service Auth.demo_auth Auth.expired_world))) <= 1.
Proof.
  exact (proj2 (proj2 (renewal_decision Auth.demo_auth Auth.expired_world))).
Defined.

(** First call without a cache file: the flow runs and token 1 is cached;
    the second call builds from the cache. *)
Lemma next_call_reuses_credentials_witness :
  let w' := Auth.world (Auth.get_gmail_service Auth.demo_auth Auth.first_run_world) in
  exists c,
    Auth.AuBuild (py "gmail") (py "v1") c (Ok 1)
    ∈ Auth.trace (Auth.get_gmail_service Auth.demo_auth Auth.first_run_world)
    /\ Auth.cache_holds Auth.demo_auth w' c
    /\ Auth.trace (Auth.get_gmail_service Auth.demo_auth w')
       = [ Auth.AuExists Auth.TOKEN true; Auth.AuLoad Auth.TOKEN (Ok (Some c));
           Auth.AuBuild (py "gmail") (py "v1") c
             (Auth.value (Auth.get_gmail_service Auth.demo_auth w')) ].
Proof.
  destruct (next_call_reuses_credentials Auth.demo_auth Auth.first_run_world 1)
    as (c & Hin & Hholds & Hnext).
  - intros c w0 w' [= <-]. split; [reflexivity|]. by eexists.
  - intros n v c0 c w0 r w' [= _ <-]. done.
  - intros c w0 r w' Hload Hholds. cbn in Hload.
    destruct (Auth.token_file w0); by injection Hload as _ <-.
  - reflexivity.
  - exists c. split; [exact Hin|]. split; [exact Hholds|].
    apply Hnext. reflexivity.
Defined.
